(** * ARI (Application Readiness Index): the clone-and-analyse pipeline

    A shallow embedding of the repository's three JavaScript files:

    - [src/unnamed/part_000]: [execCommand], [runESLintAnalysis],
      [runNpmAudit], [validateRepoByCloning], [computeAriScore];
    - [src/generateLLMExplanation.js]: [generateLLMExplanation];
    - [src/validator.js] is not needed by any statement below.

    Conventions of the embedding.

    - JavaScript numbers that hold counts and sizes are integers ([Z]); the
      scoring weights include [0.25], so [computeAriScore] computes in [Q].
      On integer counts every intermediate value is a multiple of 1/4, which
      a double represents exactly as long as it stays below 2^51; beyond
      that the deduction is far above 100 and the clamp yields 0 either way.
      [NaN] appears only as the result of [parseInt] and is [None] there.
    - Strings are byte strings; [trim] and [parseInt] know the ASCII white
      space characters only.
    - Asynchronous functions are run to completion: a promise that rejects
      is a computation that throws, [await] is sequencing.  The two
      analysers started under [Promise.all] never reject and share nothing
      but the read-only working area; they are sequenced lint first.
    - Everything outside the process (child processes, the file system, the
      ESLint library, the HTTP endpoint, [JSON.parse]) answers through a
      [world] record that the statements quantify over. *)

From Stdlib Require Import ZArith QArith Qround Qminmax Qabs Lia Lqa.
From Stdlib Require Import Ascii String.
From stdpp Require Import base strings gmap pretty.

Open Scope Z_scope.

(** ** Host language: the pieces of JavaScript the sources rely on *)

Module JS.

(** The empty string and the double quote, named once. *)
Definition empty : string := EmptyString.
Definition dquote : string := String (Ascii.ascii_of_nat 34) EmptyString.
Definition newline : string := String (Ascii.ascii_of_nat 10) EmptyString.

(** [Math.round]: the nearest integer, ties towards +infinity. *)
Definition Math_round (x : Q) : Z := Qfloor (x + (1 # 2))%Q.

(** [Math.max(a, b)] and [Math.min(a, b)] on finite numbers. *)
Definition Math_max (a b : Q) : Q := Qmax a b.
Definition Math_min (a b : Q) : Q := Qmin a b.

(** *** Strings *)

(** White space as [String.prototype.trim] and [parseInt] skip it (the
    ASCII part: tab, line feed, vertical tab, form feed, carriage return,
    space). *)
Definition is_space (a : Ascii.ascii) : bool :=
  let n := Ascii.nat_of_ascii a in
  ((9 <=? n)%nat && (n <=? 13)%nat) || (n =? 32)%nat.

Fixpoint trim_start (s : string) : string :=
  match s with
  | String a s' => if is_space a then trim_start s' else s
  | EmptyString => EmptyString
  end.

Fixpoint trim_end (s : string) : string :=
  match s with
  | String a s' =>
      match trim_end s' with
      | EmptyString => if is_space a then EmptyString else String a EmptyString
      | t => String a t
      end
  | EmptyString => EmptyString
  end.

Definition trim (s : string) : string := trim_end (trim_start s).

(** [s.substring(0, n)]. *)
Fixpoint substring0 (n : nat) (s : string) : string :=
  match n, s with
  | S n', String a s' => String a (substring0 n' s')
  | _, _ => EmptyString
  end.

(** A string is truthy when it is not empty. *)
Definition truthy_string (s : string) : bool :=
  match s with EmptyString => false | _ => true end.

(** *** parseInt(string), no radix argument

    Leading white space is skipped, a sign is read, a [0x]/[0X] prefix
    selects radix 16, and the longest prefix of digits is the value;
    without a digit the result is [NaN], here [None]. *)
Definition digit_value (radix : Z) (a : Ascii.ascii) : option Z :=
  let n := Z.of_nat (Ascii.nat_of_ascii a) in
  let d :=
    if (48 <=? n) && (n <=? 57) then Some (n - 48)
    else if (97 <=? n) && (n <=? 122) then Some (n - 87)
    else if (65 <=? n) && (n <=? 90) then Some (n - 55)
    else None in
  match d with
  | Some v => if v <? radix then Some v else None
  | None => None
  end.

Fixpoint digits_prefix (radix : Z) (acc : option Z) (s : string) : option Z :=
  match s with
  | String a s' =>
      match digit_value radix a with
      | Some v => digits_prefix radix (Some (default 0 acc * radix + v)) s'
      | None => acc
      end
  | EmptyString => acc
  end.

Definition parseInt (input : string) : option Z :=
  let s := trim_start input in
  let '(sign, s) :=
    match s with
    | String "-"%char s' => (-1, s')
    | String "+"%char s' => (1, s')
    | _ => (1, s)
    end in
  let '(radix, s) :=
    match s with
    | String "0"%char (String "x"%char s') => (16, s')
    | String "0"%char (String "X"%char s') => (16, s')
    | _ => (10, s)
    end in
  (fun v => sign * v) <$> digits_prefix radix None s.

(** [a > b] where [a] may be [NaN]: every comparison with [NaN] is
    false. *)
Definition gt_number (a : option Z) (b : Z) : bool :=
  match a with Some n => b <? n | None => false end.

(** Template-literal rendering of a number that may be [NaN]. *)
Definition show_number (a : option Z) : string :=
  match a with Some n => pretty n | None => "NaN" end.

(** [(n / d).toFixed(2)] for an integer [n] and a positive power of two
    [d]: the nearest multiple of 1/100, the larger one on a tie, printed
    with two decimals. *)
Definition two_digits (n : Z) : string :=
  if n <? 10 then "0" +:+ pretty n else pretty n.

Definition toFixed2_ratio (n d : Z) : string :=
  let hundredths := (2 * 100 * Z.abs n + d) / (2 * d) in
  (if n <? 0 then "-" else empty) +:+
  pretty (hundredths / 100) +:+ "." +:+ two_digits (hundredths mod 100).

(** [Math.round(n / d)] for integers, [d > 0]. *)
Definition round_ratio (n d : Z) : Z := (2 * n + d) / (2 * d).

(** *** Values produced by JSON.parse

    Numbers are integer literals.  An object is its list of properties
    in source order; [JSON.parse] keeps one property per key. *)
#[warnings="-register-all"]
Inductive json :=
| JNull
| JBool (b : bool)
| JNum (n : Z)
| JStr (s : string)
| JArr (items : list json)
| JObj (props : list (string * json)).

Fixpoint assoc (k : string) (props : list (string * json)) : option json :=
  match props with
  | (k', v) :: rest => if String.eqb k k' then Some v else assoc k rest
  | [] => None
  end.

(** Truthiness; [None] is [undefined]. *)
Definition truthy (v : option json) : bool :=
  match v with
  | None | Some JNull => false
  | Some (JBool b) => b
  | Some (JNum n) => negb (n =? 0)
  | Some (JStr s) => truthy_string s
  | Some (JArr _) | Some (JObj _) => true
  end.

(** [ToString], as [JSON.parse] applies it to an argument that is not a
    string. *)
Fixpoint ToString (v : json) : string :=
  match v with
  | JNull => "null"
  | JBool true => "true"
  | JBool false => "false"
  | JNum n => pretty n
  | JStr s => s
  | JArr items =>
      (fix join (l : list json) : string :=
         match l with
         | [] => empty
         | [x] => match x with JNull => empty | _ => ToString x end
         | x :: rest =>
             (match x with JNull => empty | _ => ToString x end)
               +:+ "," +:+ join rest
         end) items
  | JObj _ => "[object Object]"
  end.

End JS.

(** ** part_000: the scoring engine *)

Module Score.

(** [staticAnalysisResults.eslint] as the literal at lines 150-153 builds
    it: two properties, and no other. *)
Record eslint_counts := mk_eslint {
  errorCount : Z;
  warningCount : Z
}.

(** [staticAnalysisResults.npmAudit], lines 154-157. *)
Record audit_counts := mk_audit {
  criticalVulnerabilities : Z;
  highVulnerabilities : Z
}.

Record analysis := mk_analysis {
  eslint : eslint_counts;
  npmAudit : audit_counts
}.

(** The three status strings of [computeAriScore]. *)
Inductive risk := LowRisk | ModerateRisk | HighRisk.

Definition risk_label (r : risk) : string :=
  match r with
  | LowRisk => "Low Risk"
  | ModerateRisk => "Moderate Risk"
  | HighRisk => "High Risk"
  end.

(** The [metrics] object of the returned literal, lines 257-262 (the
    misspelt key is the source's). *)
Record metrics := mk_metrics {
  eslint_errors : Z;
  eslint_warnnings : Z;
  critical_vulns : Z;
  high_vulns : Z
}.

Record score_result := mk_score {
  ari_score : Z;
  status : risk;
  score_metrics : metrics
}.

Definition WEIGHT_ESLINT_ERROR : Q := 1.
Definition WEIGHT_ESLINT_WARNING : Q := 1 # 4.
Definition WEIGHT_CRITICAL_VULN : Q := 15.
Definition WEIGHT_HIGH_VULN : Q := 5.
Definition STARTING_SCORE : Q := 100.

Definition deduction_of (a : analysis) : Q :=
  (inject_Z (errorCount (eslint a)) * WEIGHT_ESLINT_ERROR +
   inject_Z (warningCount (eslint a)) * WEIGHT_ESLINT_WARNING +
   inject_Z (criticalVulnerabilities (npmAudit a)) * WEIGHT_CRITICAL_VULN +
   inject_Z (highVulnerabilities (npmAudit a)) * WEIGHT_HIGH_VULN)%Q.

Definition computeAriScore (a : analysis) : score_result :=
  let errors := errorCount (eslint a) in
  let warnings := warningCount (eslint a) in
  let critical := criticalVulnerabilities (npmAudit a) in
  let high := highVulnerabilities (npmAudit a) in
  let deduction := deduction_of a in
  let rawScore := (STARTING_SCORE - deduction)%Q in
  let finalScore := JS.Math_max 0 (JS.Math_min 100 rawScore) in
  let roundedScore := JS.Math_round finalScore in
  let status :=
    if 80 <=? roundedScore then LowRisk
    else if 60 <=? roundedScore then ModerateRisk
    else HighRisk in
  {| ari_score := roundedScore;
     status := status;
     score_metrics :=
       {| eslint_errors := errors;
          eslint_warnnings := warnings;
          critical_vulns := critical;
          high_vulns := high |} |}.

(** The input built from four counts. *)
Definition counts (e w c h : Z) : analysis :=
  mk_analysis (mk_eslint e w) (mk_audit c h).

(** The scoring rule as section 4.4 of the specification words it:
    [final = clamp(raw, 0, 100)]. *)
Definition spec_deduction (e w c h : Z) : Q :=
  (inject_Z e * 1 + inject_Z w * (1 # 4) + inject_Z c * 15 + inject_Z h * 5)%Q.

Definition spec_clamp (x lo hi : Q) : Q :=
  if Qlt_le_dec x lo then lo else if Qlt_le_dec hi x then hi else x.

Definition spec_final (e w c h : Z) : Q :=
  spec_clamp (100 - spec_deduction e w c h)%Q 0 100.

End Score.

(** ** Effects: exceptions, the console, the disk *)

Module Runtime.

(** A thrown [Error] object: its constructor name, the [code] property
    Node sets on system errors, and its [message]. *)
Record js_error := mk_error {
  err_name : string;
  err_code : option string;
  err_message : string
}.

Definition Error (msg : string) : js_error := mk_error "Error" None msg.
Definition TypeError (msg : string) : js_error := mk_error "TypeError" None msg.
Definition SyntaxError (msg : string) : js_error := mk_error "SyntaxError" None msg.

(** Reading an identifier that no enclosing scope binds. *)
Definition ReferenceError (name : string) : js_error :=
  mk_error "ReferenceError" None (name +:+ " is not defined").

Inductive level := Log | Warn | Err.

(** What a run does to the outside, in the order it does it. *)
Inductive event :=
| Exec (command : string)
| LoadModule (module_name : string)
| NewESLint (cwd : string)
| LintFiles (patterns : list string)
| ReadFile (path : string)
| Rm (path : string)
| Fetch (url authorization model system user : string)
| Console (lvl : level) (text : string).

(** The directories present on disk, and the events so far (oldest
    first). *)
Record state := mk_state {
  disk : gset string;
  trace : list event
}.

Inductive completion (A : Type) :=
| Normal (a : A)
| Throw (e : js_error).
Arguments Normal {A} a.
Arguments Throw {A} e.

Definition M (A : Type) : Type := state -> completion A * state.

Definition ret {A} (a : A) : M A := fun s => (Normal a, s).

Definition throw {A} (e : js_error) : M A := fun s => (Throw e, s).

Definition bind {A B} (m : M A) (k : A -> M B) : M B :=
  fun s =>
    match m s with
    | (Normal a, s') => k a s'
    | (Throw e, s') => (Throw e, s')
    end.

(** [try { body } catch (e) { handler }] *)
Definition try_catch {A} (body : M A) (handler : js_error -> M A) : M A :=
  fun s =>
    match body s with
    | (Normal a, s') => (Normal a, s')
    | (Throw e, s') => handler e s'
    end.

(** [try { body } finally { final }]: [final] runs after every completion
    of [body]; that completion stands unless [final] itself throws. *)
Definition try_finally {A} (body : M A) (final : M unit) : M A :=
  fun s =>
    match body s with
    | (c, s') =>
        match final s' with
        | (Normal _, s'') => (c, s'')
        | (Throw e, s'') => (Throw e, s'')
        end
    end.

Definition emit (e : event) : M unit :=
  fun s => (Normal tt, mk_state (disk s) (trace s ++ [e])).

Definition console (lvl : level) (text : string) : M unit :=
  emit (Console lvl text).

Definition update_disk (f : gset string -> gset string) : M unit :=
  fun s => (Normal tt, mk_state (f (disk s)) (trace s)).

(** An awaited promise that settles with the given completion. *)
Definition settle {A} (c : completion A) : M A := fun s => (c, s).

(** Evaluating an identifier reference: its binding when a scope has
    one, a [ReferenceError] otherwise. *)
Definition GetValue {A} (name : string) (binding : option A) : M A :=
  match binding with
  | Some v => ret v
  | None => throw (ReferenceError name)
  end.

Declare Scope js_scope.
Delimit Scope js_scope with js.
Notation "x <- m ;; k" := (bind m (fun x => k))
  (at level 100, m at next level, right associativity) : js_scope.
Notation "m ;; k" := (bind m (fun _ => k))
  (at level 100, right associativity) : js_scope.

(** The result and the final state of a run. *)
Definition result_of {A} (r : completion A * state) : completion A := fst r.
Definition state_of {A} (r : completion A * state) : state := snd r.

End Runtime.

(** ** The outside world *)

Module Host.
Import Runtime.

(** [error.code] in the callback of [child_process.exec]: the exit status,
    a system error name, or nothing when a signal ended the child. *)
Inductive exit_code :=
| ExitStatus (n : Z)
| ExitName (name : string)
| ExitNone.

Record exec_error := mk_exec_error {
  exec_code : exit_code;
  exec_message : string
}.

(** The three arguments [exec] passes to its callback. *)
Record exec_answer := mk_exec {
  exec_err : option exec_error;
  stdout : string;
  stderr : string
}.

(** One entry of the array [eslint.lintFiles] resolves to. *)
Record lint_file := mk_lint_file {
  file_errorCount : Z;
  file_warningCount : Z
}.

(** The part of the parsed [npm audit --json] report that [runNpmAudit]
    reads.  [vulnerabilities] is the object at [metadata.vulnerabilities],
    a count being [None] when the property is missing; counts are
    integers, as npm prints them. *)
Record vulnerabilities := mk_vulns {
  vuln_critical : option Z;
  vuln_high : option Z
}.

Inductive audit_json :=
| AuditNull
    (** the report is the JSON text [null] *)
| AuditReport (summary : option vulnerabilities)
    (** any other value; [summary] is [metadata?.vulnerabilities] when it
        is truthy *).

(** The [Response] of [node-fetch]: [ok], [status], and what [json()]
    settles with. *)
Record response := mk_response {
  ok : bool;
  http_status : Z;
  body_json : completion JS.json
}.

Record world := mk_world {
  (** process and module constants *)
  platform : string;
  dirname : string;
  now : Z;
  OPENAI_API_KEY : option string;
  (** JSON.parse *)
  JSON_parse : string -> completion JS.json;
  (** git clone; whether the attempt left the target directory behind *)
  clone_answer : exec_answer;
  clone_leaves_dir : bool;
  (** du / Get-ChildItem *)
  size_answer : exec_answer;
  (** fs.readFile(packageJsonPath, "utf8") *)
  readFile_answer : completion string;
  (** npm install --ignore-scripts *)
  install_answer : exec_answer;
  (** require("eslint"), new ESLint(...), eslint.lintFiles(...) *)
  eslint_require : option js_error;
  eslint_new : option js_error;
  eslint_lintFiles : completion (list lint_file);
  (** npm audit --json, and JSON.parse on its output *)
  audit_answer : exec_answer;
  audit_parse : string -> completion audit_json;
  (** fs.rm(tempDir, { recursive: true, force: true }): the error it
      rejects with, if any *)
  rm_answer : option js_error;
  (** fetch(...) *)
  fetch_answer : completion response
}.

End Host.

(** ** generateLLMExplanation.js *)

Module LLM.
Import Runtime Host.
Local Open Scope js_scope.

(** The [context] argument property. *)
Record context := mk_context {
  has_tests : option bool;
  eslint_failed : option bool
}.

(** The argument object; [in_context] is [None] when the caller leaves
    [context] out, and the destructuring default [{}] applies. *)
Record input := mk_input {
  in_ari_score : Z;
  in_status : Score.risk;
  in_metrics : Score.metrics;
  in_context : option context
}.

Definition OPENAI_MODEL : string := "gpt-4o-mini".
Definition endpoint : string := "https://api.openai.com/v1/chat/completions".

Definition show_bool (b : bool) : string := if b then "true" else "false".

Definition lines (l : list string) : string :=
  foldr (fun line rest => line +:+ JS.newline +:+ rest) JS.empty l.

Definition systemPrompt : string :=
  JS.newline +:+ lines [
    "You are a senior software auditor explaining technical execution risk to non-technical investors.";
    "Rules:";
    "- Do NOT invent issues";
    "- Do NOT change or reinterpret scores";
    "- Only explain based on provided metrics";
    "- Be concise, factual, and neutral";
    "- Return valid JSON only" ].

Definition userPrompt (i : input) : string :=
  let context := default (mk_context None None) (in_context i) in
  let metrics := in_metrics i in
  let q := JS.dquote in
  JS.newline +:+ lines [
    "Application Analysis:";
    JS.empty;
    "ARI Score: " +:+ pretty (in_ari_score i);
    "Status: " +:+ Score.risk_label (in_status i);
    JS.empty;
    "Metrics:";
    "- ESLint errors: " +:+ pretty (Score.eslint_errors metrics);
    "- ESLint warnings: " +:+ pretty (Score.eslint_warnnings metrics);
    "- Critical vulnerabilities: " +:+ pretty (Score.critical_vulns metrics);
    "- High vulnerabilities: " +:+ pretty (Score.high_vulns metrics);
    JS.empty;
    "Context:";
    "- Tests present: " +:+
      match has_tests context with Some b => show_bool b | None => "unknown" end;
    "- ESLint execution failed: " +:+
      show_bool (default false (eslint_failed context));
    JS.empty;
    "Tasks:";
    "1. Explain why the ARI score is at this level";
    "2. List the top technical risks";
    "3. Suggest concrete improvements that would most increase the ARI score";
    JS.empty;
    "Return ONLY valid JSON with this exact structure:";
    "{";
    "  " +:+ q +:+ "summary" +:+ q +:+ ": string,";
    "  " +:+ q +:+ "top_risks" +:+ q +:+ ": string[],";
    "  " +:+ q +:+ "why_score_is_low_or_high" +:+ q +:+ ": string[],";
    "  " +:+ q +:+ "improvement_suggestions" +:+ q +:+ ": string[]";
    "}" ].

(** *** Reading [data.choices?.[0]?.message?.content] *)

(** [v.k] on a value that is neither [null] nor [undefined], for a key
    that no prototype defines. *)
Definition prop (k : string) (v : JS.json) : option JS.json :=
  match v with
  | JS.JObj props => JS.assoc k props
  | _ => None
  end.

(** [v[0]]. *)
Definition index0 (v : JS.json) : option JS.json :=
  match v with
  | JS.JArr items => head items
  | JS.JObj props => JS.assoc "0" props
  | JS.JStr (String a _) => Some (JS.JStr (String a EmptyString))
  | _ => None
  end.

(** [v?.member]: [undefined] when [v] is [null] or [undefined]. *)
Definition optional (member : JS.json -> option JS.json) (v : option JS.json)
  : option JS.json :=
  match v with
  | None | Some JS.JNull => None
  | Some x => member x
  end.

(** The chain on a [data] that is not [null]. *)
Definition content_of (data : JS.json) : option JS.json :=
  optional (prop "content")
    (optional (prop "message")
       (optional index0 (prop "choices" data))).

Definition message_content (data : JS.json) : M (option JS.json) :=
  match data with
  | JS.JNull =>
      throw (TypeError "Cannot read properties of null (reading 'choices')")
  | _ => ret (content_of data)
  end.

Section Generator.
Variable w : world.

(** [!OPENAI_API_KEY]: the variable is unset or empty. *)
Definition no_api_key : bool :=
  match OPENAI_API_KEY w with
  | Some key => negb (JS.truthy_string key)
  | None => true
  end.

Definition fetch_completion (i : input) : M response :=
  emit (Fetch endpoint
          ("Bearer " +:+ default "undefined" (OPENAI_API_KEY w))
          OPENAI_MODEL (JS.trim systemPrompt) (JS.trim (userPrompt i))) ;;
  settle (fetch_answer w).

(** Lines 82-87: read the body, find the content, parse it. *)
Definition read_explanation (response : response) : M JS.json :=
  data <- settle (body_json response) ;;
  content <- message_content data ;;
  if negb (JS.truthy content) then ret JS.JNull
  else
    match content with
    | Some c => settle (JSON_parse w (JS.ToString c))
    | None => ret JS.JNull
    end.

(** The [catch] block, lines 89-92. *)
Definition explanation_failed (err : js_error) : M JS.json :=
  console Warn ("LLM explanation failed: " +:+ err_message err) ;;
  ret JS.JNull.

(** The function returns a JSON value; [JS.JNull] is JavaScript's
    [null]. *)
Definition generateLLMExplanation (i : input) : M JS.json :=
  if no_api_key then
    console Warn "LLM skipped: OPENAI_API_KEY not set" ;;
    ret JS.JNull
  else
    try_catch
      (response <- fetch_completion i ;;
       if negb (ok response) then
         console Warn ("LLM request failed: " +:+ pretty (http_status response)) ;;
         ret JS.JNull
       else read_explanation response)
      explanation_failed.

End Generator.

(** The Explanation shape of the specification's data model: an object
    with a string [summary] and three arrays of strings, under the
    property names the prompt asks for. *)
Definition is_string (v : JS.json) : bool :=
  match v with JS.JStr _ => true | _ => false end.

Definition is_string_array (v : option JS.json) : bool :=
  match v with
  | Some (JS.JArr items) => forallb is_string items
  | _ => false
  end.

Definition matches_Explanation (v : JS.json) : bool :=
  match v with
  | JS.JObj props =>
      match JS.assoc "summary" props with
      | Some (JS.JStr _) => true
      | _ => false
      end
      && is_string_array (JS.assoc "top_risks" props)
      && is_string_array (JS.assoc "why_score_is_low_or_high" props)
      && is_string_array (JS.assoc "improvement_suggestions" props)
  | _ => false
  end.

End LLM.

(** ** part_000: the runners and the orchestrator *)

Module Part000.
Import Runtime Host.
Local Open Scope js_scope.

Definition SHALLOW_DEPTH : Z := 1.
Definition MAX_CLONE_SIZE_BYTES : Z := 50 * 1024 * 1024.

(** [error && error.code !== 1] *)
Definition is_execution_error (err : option exec_error) : bool :=
  match err with
  | Some e =>
      match exec_code e with
      | ExitStatus 1 => false
      | _ => true
      end
  | None => false
  end.

(** What the promise of [execCommand] rejects with, line 16, and what it
    resolves with, line 20. *)
Definition rejection_error (answer : exec_answer) : js_error :=
  Error ("Command failed: " +:+
         from_option exec_message JS.empty (exec_err answer) +:+
         JS.newline +:+ "Stderr: " +:+ stderr answer).

Definition resolved_output (answer : exec_answer) : string :=
  JS.trim (stdout answer) +:+
  (if JS.truthy_string (stderr answer)
   then JS.newline +:+ JS.trim (stderr answer)
   else JS.empty).

(** [execCommand(command)], the child answering [answer]. *)
Definition execCommand (command : string) (answer : exec_answer) : M string :=
  emit (Exec command) ;;
  if is_execution_error (exec_err answer) then throw (rejection_error answer)
  else ret (resolved_output answer).

(** What [runESLintAnalysis] resolves to; [failed] is [None] when the
    returned literal has no such property. *)
Record lint_result := mk_lint {
  errors : Z;
  warnings : Z;
  failed : option bool
}.

Record audit_result := mk_audit_result {
  critical : Z;
  high : Z
}.

(** [packageJsonValidationResult] *)
Record validation := mk_validation {
  validation_isValid : bool;
  validation_message : string;
  validation_data : JS.json
}.

(** The object [validateRepoByCloning] resolves to.  A rejection has
    [isValid] and [message] only; the other properties are those of the
    acceptance literal at lines 172-185, [None] when absent
    ([explanation] may be present and [null]). *)
Record result := mk_result {
  isValid : bool;
  message : string;
  data : option JS.json;
  analysis : option Score.analysis;
  ari_score : option Z;
  status : option Score.risk;
  metrics : option Score.metrics;
  explanation : option JS.json
}.

Definition rejection (msg : string) : result :=
  mk_result false msg None None None None None None.

(** Identifiers that [validateRepoByCloning] reads but that neither it
    nor the module declares.  [existingResult], were it bound, would be
    spread into the literal built so far: its binding is the effect of
    that spread. *)
Record ambient := mk_ambient {
  amb_generateLLMExplanation : option (LLM.input -> M JS.json);
  amb_existingResult : option (result -> result)
}.

(** part_000 requires child_process, fs/promises, fs and path, and
    declares its constants and five functions: it binds neither name. *)
Definition part_000_ambient : ambient := mk_ambient None None.

Definition sep (platform : string) : string :=
  if String.eqb platform "win32" then "\" else "/".

(** [path.join] of segments that need no normalisation. *)
Definition path_join (platform : string) (segments : list string) : string :=
  match segments with
  | [] => "."
  | first :: rest => foldl (fun acc seg => acc +:+ sep platform +:+ seg) first rest
  end.

(** [staticAnalysisResults.eslint.failed]: the object stored under
    [eslint] has the properties of [Score.eslint_counts], and [failed] is
    not one of them. *)
Definition eslint_failed_property (e : Score.eslint_counts) : option bool := None.

(** [x || false] *)
Definition or_false (x : option bool) : bool := default false x.

(** [x || 0] on a count that may be missing. *)
Definition or_zero (x : option Z) : Z := default 0 x.

Section Pipeline.
Variable w : world.

(** A call into a library that either returns or throws. *)
Definition library_call (e : event) (raises : option js_error) : M unit :=
  emit e ;;
  match raises with
  | Some err => throw err
  | None => ret tt
  end.

Definition runESLintAnalysis (repoDir : string) : M lint_result :=
  try_catch
    (library_call (LoadModule "eslint") (eslint_require w) ;;
     library_call (NewESLint repoDir) (eslint_new w) ;;
     emit (LintFiles ["**/*.js"]) ;;
     results <- settle (eslint_lintFiles w) ;;
     let '(errors, warnings) :=
       foldl (fun '(errors, warnings) result =>
                (errors + file_errorCount result,
                 warnings + file_warningCount result))
             (0, 0) results in
     ret (mk_lint errors warnings None))
    (fun err =>
       console Warn "ESLint failed â€” applying conservative penalty" ;;
       ret (mk_lint 20 50 (Some true))).

(** [critical] and [high] start at 0 and are assigned together, after
    the last operation that can throw: the handler leaves both at 0. *)
Definition runNpmAudit (repoDir : string) : M audit_result :=
  let auditCommand := "cd " +:+ repoDir +:+ " && npm audit --json" in
  try_catch
    (output <- execCommand auditCommand (audit_answer w) ;;
     jsonOutput <- settle (audit_parse w output) ;;
     match jsonOutput with
     | AuditNull =>
         throw (TypeError "Cannot read properties of null (reading 'metadata')")
     | AuditReport None => ret (mk_audit_result 0 0)
     | AuditReport (Some summary) =>
         ret (mk_audit_result (or_zero (vuln_critical summary))
                              (or_zero (vuln_high summary)))
     end)
    (fun e =>
       console Err ("npm audit analysis failed to parse output: " +:+ err_message e) ;;
       ret (mk_audit_result 0 0)).

Definition tempDir_of (owner repo : string) : string :=
  path_join (platform w)
    [dirname w; "temp_repos"; owner +:+ "_" +:+ repo +:+ "_" +:+ pretty (now w)].

Definition repoUrl_of (owner repo : string) : string :=
  "https://github.com/" +:+ owner +:+ "/" +:+ repo +:+ ".git".

Definition cloning_message (repoUrl tempDir : string) : string :=
  "Clonning " +:+ repoUrl +:+ " to " +:+ tempDir +:+ "... ".

Definition cloneCommand_of (repoUrl tempDir : string) : string :=
  "git clone --depth " +:+ pretty SHALLOW_DEPTH +:+ " " +:+ repoUrl +:+ " " +:+ tempDir.

Definition sizeCommand_of (tempDir : string) : string :=
  if String.eqb (platform w) "win32" then
    "powershell -Command " +:+ JS.dquote +:+ "(Get-ChildItem -Recurse " +:+ tempDir +:+
    " | Measure-Object -Property Length -Sum).Sum" +:+ JS.dquote
  else
    "du -sb " +:+ tempDir +:+ " | awk '{print $1}'".

Definition installCommand_of (tempDir : string) : string :=
  "cd " +:+ JS.dquote +:+ tempDir +:+ JS.dquote +:+ " && npm install --ignore-scripts".

Definition size_exceeded_message (actualSizeBytes : option Z) : string :=
  "Clone Failed: Repository size (" +:+
  match actualSizeBytes with
  | Some n => JS.toFixed2_ratio n (1024 * 1024)
  | None => "NaN"
  end +:+
  " MB) exceeds the " +:+ pretty (MAX_CLONE_SIZE_BYTES / (1024 * 1024)) +:+ " MB limit.".

Definition valid_message (actualSizeBytes : option Z) : string :=
  "'package.json' found and is valid JSON. Clone size: " +:+
  JS.show_number ((fun n => JS.round_ratio n 1024) <$> actualSizeBytes) +:+ " KB.".

(** The [finally] block, lines 206-216. *)
Definition cleanup (tempDir : string) : M unit :=
  try_catch
    (library_call (Rm tempDir) (rm_answer w) ;;
     update_disk (fun d => d ∖ {[tempDir]}) ;;
     console Log ("Cleaned up temp directory: " +:+ tempDir))
    (fun cleanupError =>
       console Err ("Warning: Failed to clean up temp directory " +:+ tempDir +:+
                    ": " +:+ err_message cleanupError)).

(** The inner [try] block, lines 118-185. *)
Definition analyse (amb : ambient) (owner repo tempDir : string)
    (actualSizeBytes : option Z) : M result :=
  let packageJsonPath := path_join (platform w) [tempDir; "package.json"] in
  fileContent <- (emit (ReadFile packageJsonPath) ;; settle (readFile_answer w)) ;;
  let fileString := JS.trim fileContent in
  packageJson <- settle (JSON_parse w fileString) ;;
  let packageJsonValidationResult :=
    mk_validation true (valid_message actualSizeBytes) packageJson in
  console Log ("Starting static analysis on " +:+ owner +:+ "/" +:+ repo +:+ "...") ;;
  staticAnalysisResults <-
    (if validation_isValid packageJsonValidationResult then
       console Log ("Installing dependencies in " +:+ tempDir +:+ "...") ;;
       try_catch
         (execCommand (installCommand_of tempDir) (install_answer w) ;;
          console Log "Dependencies installed.")
         (fun installError =>
            console Warn ("Dependency installation failed: " +:+
                          err_message installError)) ;;
       (* Promise.all([runESLintAnalysis(tempDir), runNpmAudit(tempDir)]) *)
       eslintResult <- runESLintAnalysis tempDir ;;
       auditResult <- runNpmAudit tempDir ;;
       ret (Score.mk_analysis
              (Score.mk_eslint (errors eslintResult) (warnings eslintResult))
              (Score.mk_audit (critical auditResult) (high auditResult)))
     else
       (* staticAnalysisResults is still {}: line 230 reads a property
          of undefined *)
       throw (TypeError "Cannot read properties of undefined (reading 'errorCount')")) ;;
  let scoringResult := Score.computeAriScore staticAnalysisResults in
  generate <- GetValue "generateLLMExplanation" (amb_generateLLMExplanation amb) ;;
  explanation <-
    generate
      (LLM.mk_input
         (Score.ari_score scoringResult)
         (Score.status scoringResult)
         (Score.score_metrics scoringResult)
         (Some (LLM.mk_context
                  (Some false)
                  (Some (or_false (eslint_failed_property
                                     (Score.eslint staticAnalysisResults))))))) ;;
  let literal :=
    mk_result
      (validation_isValid packageJsonValidationResult)
      (validation_message packageJsonValidationResult)
      (Some (validation_data packageJsonValidationResult))
      (Some staticAnalysisResults)
      (Some (Score.ari_score scoringResult))
      (Some (Score.status scoringResult))
      (Some (Score.score_metrics scoringResult))
      None in
  spread_existingResult <- GetValue "existingResult" (amb_existingResult amb) ;;
  let spread := spread_existingResult literal in
  ret (mk_result (isValid spread) (message spread) (data spread) (analysis spread)
         (ari_score spread) (status spread) (metrics spread) (Some explanation)).

(** The outer [try] with its [catch], lines 91-205. *)
Definition attempt (amb : ambient) (owner repo tempDir : string) : M result :=
  let repoUrl := repoUrl_of owner repo in
  try_catch
    (console Log (cloning_message repoUrl tempDir) ;;
     update_disk (fun d => if clone_leaves_dir w then {[tempDir]} ∪ d else d) ;;
     execCommand (cloneCommand_of repoUrl tempDir) (clone_answer w) ;;
     rawSizeBytes <- execCommand (sizeCommand_of tempDir) (size_answer w) ;;
     let actualSizeBytes := JS.parseInt rawSizeBytes in
     if JS.gt_number actualSizeBytes MAX_CLONE_SIZE_BYTES then
       ret (rejection (size_exceeded_message actualSizeBytes))
     else
       try_catch
         (analyse amb owner repo tempDir actualSizeBytes)
         (fun readParseError =>
            if bool_decide (err_code readParseError = Some "ENOENT") then
              ret (rejection "'package.json' NOT found in the repository.")
            else
              ret (rejection ("'package.json' found but is NOT valid JSON: " +:+
                              err_message readParseError))))
    (fun gitError =>
       ret (rejection ("Clone Failed: " +:+
                       JS.substring0 200 (err_message gitError) +:+ "..."))).

Definition validateRepoByCloning_with (amb : ambient) (owner repo : string)
    : M result :=
  let tempDir := tempDir_of owner repo in
  try_finally (attempt amb owner repo tempDir) (cleanup tempDir).

(** The function as part_000 has it. *)
Definition validateRepoByCloning (owner repo : string) : M result :=
  validateRepoByCloning_with part_000_ambient owner repo.

End Pipeline.

End Part000.

(** ** Concrete worlds *)

Module Worlds.
Import Runtime Host.

(** A [JSON.parse] that knows the given texts and rejects the others. *)
Definition parse_table (known : list (string * JS.json)) (text : string)
    : completion JS.json :=
  match JS.assoc text known with
  | Some v => Normal v
  | None => Throw (SyntaxError "Unexpected token in JSON")
  end.

Definition exits_zero (out : string) : exec_answer := mk_exec None out JS.empty.

(** The message content of the canned chat completion. *)
Definition canned_content : string := "{ }".

Definition chat_completion (content : JS.json) : JS.json :=
  JS.JObj [("choices", JS.JArr [JS.JObj [("message", JS.JObj [("content", content)])]])].

(** A small repository with a valid package.json, three lint errors and
    four warnings, one critical vulnerability, and a model that answers
    with an empty object. *)
Definition healthy : world :=
  {| platform := "linux";
     dirname := "/srv/ari";
     now := 1700000000000;
     OPENAI_API_KEY := Some "sk-test";
     JSON_parse := parse_table [("{ }", JS.JObj []); ("null", JS.JNull)];
     clone_answer := exits_zero "Cloning into the working area";
     clone_leaves_dir := true;
     size_answer := exits_zero "123456";
     readFile_answer := Normal "{ }";
     install_answer := exits_zero "added 1 package";
     eslint_require := None;
     eslint_new := None;
     eslint_lintFiles := Normal [mk_lint_file 3 4; mk_lint_file 0 0];
     audit_answer := exits_zero "report";
     audit_parse := fun _ =>
       Normal (AuditReport (Some (mk_vulns (Some 1) None)));
     rm_answer := None;
     fetch_answer :=
       Normal (mk_response true 200
                 (Normal (chat_completion (JS.JStr canned_content)))) |}.

Definition with_rm_answer (a : option js_error) (w : world) : world :=
  {| platform := platform w; dirname := dirname w; now := now w;
     OPENAI_API_KEY := OPENAI_API_KEY w; JSON_parse := JSON_parse w;
     clone_answer := clone_answer w; clone_leaves_dir := clone_leaves_dir w;
     size_answer := size_answer w; readFile_answer := readFile_answer w;
     install_answer := install_answer w; eslint_require := eslint_require w;
     eslint_new := eslint_new w; eslint_lintFiles := eslint_lintFiles w;
     audit_answer := audit_answer w; audit_parse := audit_parse w;
     rm_answer := a;
     fetch_answer := fetch_answer w |}.

Definition with_size_answer (a : exec_answer) (w : world) : world :=
  {| platform := platform w; dirname := dirname w; now := now w;
     OPENAI_API_KEY := OPENAI_API_KEY w; JSON_parse := JSON_parse w;
     clone_answer := clone_answer w; clone_leaves_dir := clone_leaves_dir w;
     size_answer := a; readFile_answer := readFile_answer w;
     install_answer := install_answer w; eslint_require := eslint_require w;
     eslint_new := eslint_new w; eslint_lintFiles := eslint_lintFiles w;
     audit_answer := audit_answer w; audit_parse := audit_parse w;
     rm_answer := rm_answer w;
     fetch_answer := fetch_answer w |}.

Definition with_eslint_require (a : option js_error) (w : world) : world :=
  {| platform := platform w; dirname := dirname w; now := now w;
     OPENAI_API_KEY := OPENAI_API_KEY w; JSON_parse := JSON_parse w;
     clone_answer := clone_answer w; clone_leaves_dir := clone_leaves_dir w;
     size_answer := size_answer w; readFile_answer := readFile_answer w;
     install_answer := install_answer w; eslint_require := a;
     eslint_new := eslint_new w; eslint_lintFiles := eslint_lintFiles w;
     audit_answer := audit_answer w; audit_parse := audit_parse w;
     rm_answer := rm_answer w;
     fetch_answer := fetch_answer w |}.

Definition with_audit_answer (a : exec_answer) (w : world) : world :=
  {| platform := platform w; dirname := dirname w; now := now w;
     OPENAI_API_KEY := OPENAI_API_KEY w; JSON_parse := JSON_parse w;
     clone_answer := clone_answer w; clone_leaves_dir := clone_leaves_dir w;
     size_answer := size_answer w; readFile_answer := readFile_answer w;
     install_answer := install_answer w; eslint_require := eslint_require w;
     eslint_new := eslint_new w; eslint_lintFiles := eslint_lintFiles w;
     audit_answer := a; audit_parse := audit_parse w;
     rm_answer := rm_answer w;
     fetch_answer := fetch_answer w |}.

Definition with_fetch_answer (a : completion response) (w : world) : world :=
  {| platform := platform w; dirname := dirname w; now := now w;
     OPENAI_API_KEY := OPENAI_API_KEY w; JSON_parse := JSON_parse w;
     clone_answer := clone_answer w; clone_leaves_dir := clone_leaves_dir w;
     size_answer := size_answer w; readFile_answer := readFile_answer w;
     install_answer := install_answer w; eslint_require := eslint_require w;
     eslint_new := eslint_new w; eslint_lintFiles := eslint_lintFiles w;
     audit_answer := audit_answer w; audit_parse := audit_parse w;
     rm_answer := rm_answer w;
     fetch_answer := a |}.

Definition with_clone_answer (a : exec_answer) (leaves : bool) (w : world) : world :=
  {| platform := platform w; dirname := dirname w; now := now w;
     OPENAI_API_KEY := OPENAI_API_KEY w; JSON_parse := JSON_parse w;
     clone_answer := a; clone_leaves_dir := leaves;
     size_answer := size_answer w; readFile_answer := readFile_answer w;
     install_answer := install_answer w; eslint_require := eslint_require w;
     eslint_new := eslint_new w; eslint_lintFiles := eslint_lintFiles w;
     audit_answer := audit_answer w; audit_parse := audit_parse w;
     rm_answer := rm_answer w;
     fetch_answer := fetch_answer w |}.

Definition with_readFile_answer (a : completion string) (w : world) : world :=
  {| platform := platform w; dirname := dirname w; now := now w;
     OPENAI_API_KEY := OPENAI_API_KEY w; JSON_parse := JSON_parse w;
     clone_answer := clone_answer w; clone_leaves_dir := clone_leaves_dir w;
     size_answer := size_answer w; readFile_answer := a;
     install_answer := install_answer w; eslint_require := eslint_require w;
     eslint_new := eslint_new w; eslint_lintFiles := eslint_lintFiles w;
     audit_answer := audit_answer w; audit_parse := audit_parse w;
     rm_answer := rm_answer w;
     fetch_answer := fetch_answer w |}.

(** The repository does not exist: git exits with status 128. *)
Definition clone_refused : world :=
  with_clone_answer
    (mk_exec (Some (mk_exec_error (ExitStatus 128) "Command failed: git clone"))
             JS.empty "fatal: repository not found")
    false healthy.

(** The repository has no package.json. *)
Definition no_package_json : world :=
  with_readFile_answer
    (Throw (mk_error "Error" (Some "ENOENT") "ENOENT: no such file or directory"))
    healthy.

(** The package.json is not JSON. *)
Definition broken_package_json : world :=
  with_readFile_answer (Normal "{ name: ") healthy.

(** The same repository when the eslint package cannot be loaded. *)
Definition lint_broken : world :=
  with_eslint_require
    (Some (mk_error "Error" (Some "MODULE_NOT_FOUND") "Cannot find module 'eslint'"))
    healthy.

(** The same repository when npm cannot be spawned. *)
Definition audit_broken : world :=
  with_audit_answer
    (mk_exec (Some (mk_exec_error (ExitStatus 127) "Command failed: npm audit --json"))
             JS.empty "sh: 1: npm: not found")
    healthy.

(** A clone of 60 MiB. *)
Definition oversized : world := with_size_answer (exits_zero "62914560") healthy.

(** A clone of 60 MiB whose directory cannot be removed. *)
Definition oversized_undeletable : world :=
  with_rm_answer
    (Some (mk_error "Error" (Some "EBUSY") "EBUSY: resource busy or locked"))
    oversized.

(** The endpoint is unreachable. *)
Definition llm_unreachable : world :=
  with_fetch_answer (Throw (mk_error "FetchError" (Some "ECONNREFUSED")
                              "request to the endpoint failed"))
    healthy.

Definition start : state := mk_state ∅ [].

(** An argument for the generator on its own: the scoring example of the
    specification (score 63, Moderate Risk). *)
Definition sample_input : LLM.input :=
  LLM.mk_input 63 Score.ModerateRisk (Score.mk_metrics 10 8 1 2)
    (Some (LLM.mk_context (Some false) (Some false))).

End Worlds.

(** ** The situations the statements speak of *)

Module Conditions.
Import Runtime Host.

(** The Lint Runner cannot complete: loading the library, constructing
    the linter or linting the files raises. *)
Definition lint_cannot_complete (w : world) : Prop :=
  is_Some (eslint_require w) \/
  is_Some (eslint_new w) \/
  exists e, eslint_lintFiles w = Throw e.

(** The audit cannot complete: the command is rejected, or its output
    does not parse, or it parses to [null], whose property cannot be
    read. *)
Definition audit_cannot_complete (w : world) : Prop :=
  Part000.is_execution_error (exec_err (audit_answer w)) = true \/
  (exists e, audit_parse w (Part000.resolved_output (audit_answer w)) = Throw e) \/
  audit_parse w (Part000.resolved_output (audit_answer w)) = Normal AuditNull.

Definition clone_succeeds (w : world) : Prop :=
  Part000.is_execution_error (exec_err (clone_answer w)) = false.

Definition size_measured (w : world) : Prop :=
  Part000.is_execution_error (exec_err (size_answer w)) = false.

(** [actualSizeBytes] *)
Definition measured_size (w : world) : option Z :=
  JS.parseInt (Part000.resolved_output (size_answer w)).

(** The fetched tree measures more than the ceiling. *)
Definition size_exceeds (w : world) : Prop :=
  clone_succeeds w /\ size_measured w /\
  exists n, measured_size w = Some n /\ Part000.MAX_CLONE_SIZE_BYTES < n.

Definition size_check_passes (w : world) : Prop :=
  clone_succeeds w /\ size_measured w /\
  JS.gt_number (measured_size w) Part000.MAX_CLONE_SIZE_BYTES = false.

Definition package_json_parses (w : world) : Prop :=
  exists content pkg,
    readFile_answer w = Normal content /\
    JSON_parse w (JS.trim content) = Normal pkg.

(** The clone succeeds, the size check passes, package.json is read and
    parses; the analysers and the scoring cannot fail. *)
Definition reaches_scoring (w : world) : Prop :=
  size_check_passes w /\ package_json_parses w.

(** The response of the endpoint carries no message content. *)
Definition no_message_content (data : JS.json) : Prop :=
  data = JS.JNull \/ JS.truthy (LLM.content_of data) = false.

(** The message content is there and is not parseable JSON. *)
Definition content_unparseable (w : world) (data : JS.json) : Prop :=
  exists c e, LLM.content_of data = Some c /\ JSON_parse w (JS.ToString c) = Throw e.

(** The situations in which no explanation can be obtained. *)
Definition explanation_unavailable (w : world) : Prop :=
  LLM.no_api_key w = true \/
  (exists e, fetch_answer w = Throw e) \/
  (exists r, fetch_answer w = Normal r /\
     (ok r = false \/
      (exists e, body_json r = Throw e) \/
      (exists data, body_json r = Normal data /\
         (no_message_content data \/ content_unparseable w data)))).

(** The message content is a value that [JSON.parse] accepts. *)
Definition content_parses_to (w : world) (v : JS.json) : Prop :=
  LLM.no_api_key w = false /\
  exists r data c,
    fetch_answer w = Normal r /\ ok r = true /\
    body_json r = Normal data /\ data <> JS.JNull /\
    LLM.content_of data = Some c /\ JS.truthy (Some c) = true /\
    JSON_parse w (JS.ToString c) = Normal v.

(** The score in quarter points, before rounding. *)
Definition clamped_quarters (e w c h : Z) : Z :=
  Z.max 0 (Z.min 400 (400 - (4 * e + w + 60 * c + 20 * h))).

(** A computation that returns whatever state it starts in, one that
    throws whatever state it starts in, and one that returns a given
    value. *)
Definition returns {A} (m : M A) : Prop :=
  forall s, exists a s', m s = (Normal a, s').

Definition yields {A} (a : A) (m : M A) : Prop :=
  forall s, exists s', m s = (Normal a, s').

Definition never_returns {A} (m : M A) : Prop :=
  forall s, exists e s', m s = (Throw e, s').

Definition throws {A} (e : js_error) (m : M A) : Prop :=
  forall s, exists s', m s = (Throw e, s').

(** Every value a computation returns satisfies [P]. *)
Definition only_returns {A} (P : A -> Prop) (m : M A) : Prop :=
  forall s a s', m s = (Normal a, s') -> P a.

End Conditions.

(** ** validator.js *)

Module Validator.
Import Runtime.
Local Open Scope js_scope.

Definition BASE_URL : string := "https://api.github.com".

(** [error.response] of a rejected axios request: the status and its
    text. *)
Record http_response := mk_http_response {
  response_status : Z;
  response_statusText : string
}.

(** The error [axios.get] rejects with: [response] is there when the
    server answered (with a status outside 2xx), absent when it did not. *)
Record axios_error := mk_axios_error {
  error_response : option http_response;
  error_message : string
}.

(** What [axios.get(url, { responseType: 'text', ... })] settles with:
    [response.data], a string, or the error. *)
Inductive get_outcome :=
| Resolved (data : string)
| Rejected (error : axios_error).

(** The hosting provider, asked by URL, and [JSON.parse]. *)
Record github := mk_github {
  axios_get : string -> get_outcome;
  parse : string -> completion JS.json
}.

(** The object [validateProjectType] resolves to; [check_data] is [None]
    when the literal has no [data]. *)
Record project_check := mk_check {
  check_isValid : bool;
  check_message : string;
  check_data : option JS.json
}.

Definition contentUrl_of (owner repo branch : string) : string :=
  BASE_URL +:+ "/repos/" +:+ owner +:+ "/" +:+ repo +:+ "/contents/" +:+
  "package.json" +:+ "?ref=" +:+ branch.

Definition not_found_message (owner repo : string) : string :=
  "'Package.json' not found in the  branch of the '" +:+ owner +:+ "/" +:+ repo +:+
  "' repository.".

(** [error.response ? `Status ...` : error.message] *)
Definition errorMessage_of (error : axios_error) : string :=
  match error_response error with
  | Some r =>
      "Status " +:+ pretty (response_status r) +:+ ": " +:+ response_statusText r
  | None => error_message error
  end.

(** [error.response && error.response.status === 404] *)
Definition is_404 (error : axios_error) : bool :=
  match error_response error with
  | Some r => response_status r =? 404
  | None => false
  end.

(** [validateProjectType(owner, repo, branch = 'main')]; [branch] is
    [None] when the caller leaves it out. *)
Definition validateProjectType (g : github) (owner repo : string)
    (branch : option string) : M project_check :=
  let branch := default "main" branch in
  let contentUrl := contentUrl_of owner repo branch in
  match axios_get g contentUrl with
  | Resolved fileContnent =>
      console Log fileContnent ;;
      try_catch
        (packageJson <- settle (parse g fileContnent) ;;
         ret (mk_check true "'package.json' found and valid JSON." (Some packageJson)))
        (fun jsonError =>
           ret (mk_check false "'Package.json' found but it is not a valid JSON." None))
  | Rejected error =>
      if is_404 error then
        ret (mk_check false (not_found_message owner repo) None)
      else
        ret (mk_check false ("Github API Error: " +:+ errorMessage_of error) None)
  end.

End Validator.

(** ** What the orchestrator returns, and further situations *)

Module Paths.
Import Runtime Host.

(** A string of decimal digits. *)
Definition is_decimal_digit (a : Ascii.ascii) : bool :=
  let n := Ascii.nat_of_ascii a in (48 <=? n)%nat && (n <=? 57)%nat.

Fixpoint all_digits (s : string) : bool :=
  match s with
  | String a s' => is_decimal_digit a && all_digits s'
  | EmptyString => true
  end.

(** The two messages of the read/parse handler, lines 186-199. *)
Definition read_parse_rejection (e : js_error) : Part000.result :=
  if bool_decide (err_code e = Some "ENOENT") then
    Part000.rejection "'package.json' NOT found in the repository."
  else
    Part000.rejection
      ("'package.json' found but is NOT valid JSON: " +:+ err_message e).

(** The message of the outer handler, line 204. *)
Definition clone_failed (e : js_error) : Part000.result :=
  Part000.rejection
    ("Clone Failed: " +:+ JS.substring0 200 (err_message e) +:+ "...").

(** The returned object as a decision on the clone, the measurement, the
    read and the parse alone. *)
Definition verdict (w : world) : Part000.result :=
  if Part000.is_execution_error (exec_err (clone_answer w)) then
    clone_failed (Part000.rejection_error (clone_answer w))
  else if Part000.is_execution_error (exec_err (size_answer w)) then
    clone_failed (Part000.rejection_error (size_answer w))
  else if JS.gt_number (Conditions.measured_size w) Part000.MAX_CLONE_SIZE_BYTES then
    Part000.rejection (Part000.size_exceeded_message (Conditions.measured_size w))
  else
    match readFile_answer w with
    | Throw e => read_parse_rejection e
    | Normal content =>
        match JSON_parse w (JS.trim content) with
        | Throw e => read_parse_rejection e
        | Normal _ => read_parse_rejection (ReferenceError "generateLLMExplanation")
        end
    end.

(** The state in which the analysers start: the clone, the measurement,
    the read and the installation are behind. *)
Definition install_report (w : world) : event :=
  if Part000.is_execution_error (exec_err (install_answer w)) then
    Console Warn ("Dependency installation failed: " +:+
                  err_message (Part000.rejection_error (install_answer w)))
  else Console Log "Dependencies installed.".


(** The totals of the files' counts. *)
Definition total_errors (results : list lint_file) : Z :=
  foldr (fun r acc => file_errorCount r + acc) 0 results.

Definition total_warnings (results : list lint_file) : Z :=
  foldr (fun r acc => file_warningCount r + acc) 0 results.

(** The Lint Runner completes with [results]. *)
Definition lint_completes (w : world) (results : list lint_file) : Prop :=
  eslint_require w = None /\ eslint_new w = None /\
  eslint_lintFiles w = Normal results.

(** The audit command exits with status 0 or 1 and its output parses to a
    report. *)
Definition audit_reports (w : world) (summary : option vulnerabilities) : Prop :=
  (exec_err (audit_answer w) = None \/
   exists msg, exec_err (audit_answer w) = Some (mk_exec_error (ExitStatus 1) msg)) /\
  audit_parse w (Part000.resolved_output (audit_answer w)) = Normal (AuditReport summary).

(** The counts [runNpmAudit] reads from a report. *)
Definition counts_of_report (summary : option vulnerabilities) : Part000.audit_result :=
  match summary with
  | Some v =>
      Part000.mk_audit_result (default 0 (vuln_critical v)) (default 0 (vuln_high v))
  | None => Part000.mk_audit_result 0 0
  end.

(** The usual shape of a chat completion: the first of the choices has a
    message whose content is the string [c]. *)
Definition first_choice_content (data : JS.json) (c : string) : Prop :=
  exists props first others message,
    data = JS.JObj props /\
    JS.assoc "choices" props = Some (JS.JArr (JS.JObj first :: others)) /\
    JS.assoc "message" first = Some (JS.JObj message) /\
    JS.assoc "content" message = Some (JS.JStr c).

Definition completion_received (w : world) (data : JS.json) : Prop :=
  LLM.no_api_key w = false /\
  exists r, fetch_answer w = Normal r /\ ok r = true /\ body_json r = Normal data.

End Paths.

(** ** Further concrete worlds *)

Module Scenarios.
Import Runtime Host Worlds.


Definition without_api_key (w : world) : world :=
  {| platform := platform w; dirname := dirname w; now := now w;
     OPENAI_API_KEY := None; JSON_parse := JSON_parse w;
     clone_answer := clone_answer w; clone_leaves_dir := clone_leaves_dir w;
     size_answer := size_answer w; readFile_answer := readFile_answer w;
     install_answer := install_answer w; eslint_require := eslint_require w;
     eslint_new := eslint_new w; eslint_lintFiles := eslint_lintFiles w;
     audit_answer := audit_answer w; audit_parse := audit_parse w;
     rm_answer := rm_answer w;
     fetch_answer := fetch_answer w |}.

(** du prints the size and complains on stderr about a file it could not
    read. *)
Definition du_complains : world :=
  with_size_answer
    (mk_exec None "123456" "du: cannot read directory: Permission denied")
    healthy.

(** The measurement prints no number at all. *)
Definition size_unreadable : world :=
  with_size_answer (exits_zero "du: invalid option") healthy.

(** du itself cannot be run. *)
Definition du_missing : world :=
  with_size_answer
    (mk_exec (Some (mk_exec_error (ExitStatus 127) "Command failed: du -sb"))
             JS.empty "sh: 1: du: not found")
    healthy.



(** npm audit finds vulnerabilities and therefore exits with status 1. *)
Definition audit_finds : world :=
  with_audit_answer
    (mk_exec (Some (mk_exec_error (ExitStatus 1) "Command failed: npm audit --json"))
             "report" JS.empty)
    healthy.

(** A provider that has the repository o/r on branch main, with a valid
    package.json, has o/bad with a package.json that is not JSON, answers
    403 for o/private, and 404 for everything else. *)
Definition provider : Validator.github :=
  Validator.mk_github
    (fun url =>
       if String.eqb url "https://api.github.com/repos/o/r/contents/package.json?ref=main"
       then Validator.Resolved "{ }"
       else if String.eqb url "https://api.github.com/repos/o/bad/contents/package.json?ref=main"
       then Validator.Resolved "{ name: "
       else if String.eqb url "https://api.github.com/repos/o/private/contents/package.json?ref=main"
       then Validator.Rejected
              (Validator.mk_axios_error
                 (Some (Validator.mk_http_response 403 "Forbidden"))
                 "Request failed with status code 403")
       else Validator.Rejected
              (Validator.mk_axios_error
                 (Some (Validator.mk_http_response 404 "Not Found"))
                 "Request failed with status code 404"))
    (parse_table [("{ }", JS.JObj [])]).

(** A provider that cannot be reached. *)
Definition unreachable_provider : Validator.github :=
  Validator.mk_github
    (fun _ => Validator.Rejected
                (Validator.mk_axios_error None "getaddrinfo ENOTFOUND api.github.com"))
    (parse_table []).

End Scenarios.

(** * Properties *)

(** ** The scoring engine *)

Section Scoring.
Import Score Conditions.

Lemma raw_quarters (e w c h : Z) :
  (STARTING_SCORE - deduction_of (counts e w c h) ==
   (400 - (4 * e + w + 60 * c + 20 * h)) # 4)%Q.
Proof.
  unfold STARTING_SCORE, deduction_of, counts, WEIGHT_ESLINT_ERROR,
    WEIGHT_ESLINT_WARNING, WEIGHT_CRITICAL_VULN, WEIGHT_HIGH_VULN.
  cbn [eslint npmAudit errorCount warningCount
       criticalVulnerabilities highVulnerabilities].
  unfold Qeq, Qminus, Qplus, Qmult, Qopp, inject_Z; cbn. lia.
Qed.

Lemma final_quarters (e w c h : Z) :
  (JS.Math_max 0 (JS.Math_min 100
     (STARTING_SCORE - deduction_of (counts e w c h))) ==
   clamped_quarters e w c h # 4)%Q.
Proof.
  unfold JS.Math_max, JS.Math_min, clamped_quarters.
  rewrite raw_quarters.
  set (r := 400 - (4 * e + w + 60 * c + 20 * h)).
  destruct (Q.min_spec 100 (r # 4)) as [[Hlt ->] | [Hle ->]];
    [ destruct (Q.max_spec 0 100) as [[_ ->] | [Habs _]]
    | destruct (Q.max_spec 0 (r # 4)) as [[H0 ->] | [H0 ->]] ];
    unfold Qlt, Qle, Qeq in *; cbn in *; lia.
Qed.

Lemma spec_clamp_quarters (x : Q) (k : Z) :
  (x == k # 4)%Q -> (spec_clamp x 0 100 == Z.max 0 (Z.min 400 k) # 4)%Q.
Proof.
  intros Hx. unfold spec_clamp.
  destruct (Qlt_le_dec x 0) as [H0 | H0];
    [| destruct (Qlt_le_dec 100 x) as [H1 | H1]];
    try rewrite Hx; rewrite Hx in *;
    unfold Qlt, Qle, Qeq in *; cbn in *; lia.
Qed.

Lemma spec_final_quarters (e w c h : Z) :
  (spec_final e w c h == clamped_quarters e w c h # 4)%Q.
Proof.
  apply spec_clamp_quarters.
  unfold spec_deduction, Qeq, Qminus, Qplus, Qmult, Qopp, inject_Z; cbn. lia.
Qed.

Lemma round_quarters (k : Z) : JS.Math_round (k # 4) = (k + 2) / 4.
Proof.
  unfold JS.Math_round, Qfloor, Qplus; cbn [Qnum Qden].
  change (Z.pos (4 * 2)) with (4 * 2).
  replace (k * 2 + 1 * 4) with ((k + 2) * 2) by lia.
  apply Z.div_mul_cancel_r; lia.
Qed.

Lemma ari_score_quarters (e w c h : Z) :
  ari_score (computeAriScore (counts e w c h)) = (clamped_quarters e w c h + 2) / 4.
Proof.
  unfold computeAriScore; cbn [ari_score].
  unfold JS.Math_round. rewrite (Qfloor_comp _ _ (Qplus_comp _ _ (final_quarters e w c h) _ _ (Qeq_refl _))).
  apply round_quarters.
Qed.

(** C2.  For all integer counts, and so for all non-negative ones,
    [computeAriScore] returns as [ari_score] the rounding of
    [clamp(100 - (e*1 + w*0.25 + c*15 + h*5), 0, 100)]: an integer between
    0 and 100 that is within one half of the clamped value, however large
    the deduction is (a thousand errors score 0); all counts at zero
    score 100 with status Low Risk. *)
Theorem computeAriScore_rounds_clamped_score (e w c h : Z) :
  let r := computeAriScore (counts e w c h) in
  ari_score r = JS.Math_round (spec_final e w c h) /\
  0 <= ari_score r <= 100 /\
  (Qabs (inject_Z (ari_score r) - spec_final e w c h) <= 1 # 2)%Q /\
  ari_score (computeAriScore (counts 1000 0 0 0)) = 0 /\
  ari_score (computeAriScore (counts 0 0 0 0)) = 100 /\
  status (computeAriScore (counts 0 0 0 0)) = LowRisk.
Proof.
  intros r; subst r.
  assert (Hs : ari_score (computeAriScore (counts e w c h)) =
               JS.Math_round (spec_final e w c h)).
  { rewrite ari_score_quarters. unfold JS.Math_round.
    rewrite (Qfloor_comp _ _ (Qplus_comp _ _ (spec_final_quarters e w c h) _ _ (Qeq_refl _))).
    symmetry; apply round_quarters. }
  split; [exact Hs|].
  split.
  { rewrite ari_score_quarters. unfold clamped_quarters.
    pose proof (Z.div_mod (Z.max 0 (Z.min 400 (400 - (4 * e + w + 60 * c + 20 * h))) + 2) 4).
    pose proof (Z.mod_pos_bound (Z.max 0 (Z.min 400 (400 - (4 * e + w + 60 * c + 20 * h))) + 2) 4).
    lia. }
  split.
  { rewrite Hs. unfold JS.Math_round.
    pose proof (Qfloor_le (spec_final e w c h + (1 # 2))) as Hlo.
    pose proof (Qlt_floor (spec_final e w c h + (1 # 2))) as Hhi.
    rewrite inject_Z_plus in Hhi. change (inject_Z 1) with 1%Q in Hhi.
    apply Qabs_Qle_condition.
    generalize dependent (inject_Z (Qfloor (spec_final e w c h + (1 # 2)))).
    generalize (spec_final e w c h). intros x r Hlo Hhi. split; lra. }
  repeat split; reflexivity.
Qed.

Lemma status_by_score (a : analysis) :
  status (computeAriScore a) =
  let x := ari_score (computeAriScore a) in
  if 80 <=? x then LowRisk else if 60 <=? x then ModerateRisk else HighRisk.
Proof. reflexivity. Qed.

(** C3.  The status is High Risk exactly when the final score is below
    60, Moderate Risk exactly from 60 up to 79, Low Risk exactly from 80
    on; scores 59, 60, 79 and 80 are reached and fall as the thresholds
    say; ten errors, eight warnings, one critical and two high
    vulnerabilities deduct 37 and score 63, Moderate Risk. *)
Theorem computeAriScore_status_thresholds (a : analysis) :
  let r := computeAriScore a in
  (status r = HighRisk <-> ari_score r < 60) /\
  (status r = ModerateRisk <-> 60 <= ari_score r < 80) /\
  (status r = LowRisk <-> 80 <= ari_score r) /\
  (ari_score (computeAriScore (counts 41 0 0 0)) = 59 /\
   status (computeAriScore (counts 41 0 0 0)) = HighRisk) /\
  (ari_score (computeAriScore (counts 40 0 0 0)) = 60 /\
   status (computeAriScore (counts 40 0 0 0)) = ModerateRisk) /\
  (ari_score (computeAriScore (counts 21 0 0 0)) = 79 /\
   status (computeAriScore (counts 21 0 0 0)) = ModerateRisk) /\
  (ari_score (computeAriScore (counts 20 0 0 0)) = 80 /\
   status (computeAriScore (counts 20 0 0 0)) = LowRisk) /\
  ((deduction_of (counts 10 8 1 2) == 37)%Q /\
   ari_score (computeAriScore (counts 10 8 1 2)) = 63 /\
   status (computeAriScore (counts 10 8 1 2)) = ModerateRisk).
Proof.
  intros r; subst r.
  rewrite (status_by_score a).
  generalize (ari_score (computeAriScore a)); intros x; cbv zeta.
  split; [| split; [| split]].
  - destruct (Z.leb_spec 80 x), (Z.leb_spec 60 x);
      split; intros; try discriminate; try reflexivity; lia.
  - destruct (Z.leb_spec 80 x), (Z.leb_spec 60 x);
      split; intros; try discriminate; try reflexivity; lia.
  - destruct (Z.leb_spec 80 x), (Z.leb_spec 60 x);
      split; intros; try discriminate; try reflexivity; lia.
  - repeat split; reflexivity.
Qed.

End Scoring.

(** ** Reasoning about computations *)

Section Effects.
Import Runtime Conditions.
Local Open Scope js_scope.
Context {A B : Type}.

Lemma returns_ret (a : A) : returns (ret a).
Proof. intros s; eexists _, _; reflexivity. Qed.

Lemma yields_ret (a : A) : yields a (ret a).
Proof. intros s; eexists; reflexivity. Qed.

Lemma yields_settle (a : A) : yields a (settle (Normal a)).
Proof. intros s; eexists; reflexivity. Qed.

Lemma throws_throw (e : js_error) : throws (A := A) e (throw e).
Proof. intros s; eexists; reflexivity. Qed.

Lemma throws_GetValue (name : string) :
  throws (A := A) (ReferenceError name) (GetValue name None).
Proof. intros s; eexists; reflexivity. Qed.

Lemma throws_never_returns (e : js_error) (m : M A) : throws e m -> never_returns m.
Proof. intros H s; destruct (H s) as [s' ->]; eauto. Qed.

Lemma returns_bind (m : M A) (k : A -> M B) :
  returns m -> (forall a, returns (k a)) -> returns (bind m k).
Proof.
  intros Hm Hk s. unfold bind.
  destruct (Hm s) as (a & s' & ->). apply Hk.
Qed.

Lemma yields_bind (a : A) (b : B) (m : M A) (k : A -> M B) :
  yields a m -> yields b (k a) -> yields b (bind m k).
Proof.
  intros Hm Hk s. unfold bind.
  destruct (Hm s) as (s' & ->). apply Hk.
Qed.

Lemma throws_bind_l (e : js_error) (m : M A) (k : A -> M B) :
  throws e m -> throws e (bind m k).
Proof.
  intros Hm s. unfold bind. destruct (Hm s) as (s' & ->). eauto.
Qed.

Lemma throws_bind_r (e : js_error) (m : M A) (k : A -> M B) :
  returns m -> (forall a, throws e (k a)) -> throws e (bind m k).
Proof.
  intros Hm Hk s. unfold bind.
  destruct (Hm s) as (a & s' & ->). apply Hk.
Qed.

Lemma throws_bind_yield (e : js_error) (a : A) (m : M A) (k : A -> M B) :
  yields a m -> throws e (k a) -> throws e (bind m k).
Proof.
  intros Hm Hk s. unfold bind.
  destruct (Hm s) as (s' & ->). apply Hk.
Qed.

Lemma never_returns_bind_l (m : M A) (k : A -> M B) :
  never_returns m -> never_returns (bind m k).
Proof.
  intros Hm s. unfold bind. destruct (Hm s) as (e & s' & ->). eauto.
Qed.

Lemma never_returns_bind_r (m : M A) (k : A -> M B) :
  (forall a, never_returns (k a)) -> never_returns (bind m k).
Proof.
  intros Hk s. unfold bind.
  destruct (m s) as [[a | e] s']; [apply Hk | eauto].
Qed.

Lemma returns_try_catch (m : M A) (h : js_error -> M A) :
  (forall e, returns (h e)) -> returns (try_catch m h).
Proof.
  intros Hh s. unfold try_catch.
  destruct (m s) as [[a | e] s']; [eauto | apply Hh].
Qed.

Lemma only_returns_ret (P : A -> Prop) (a : A) : P a -> only_returns P (ret a).
Proof. intros H s a' s' E. inversion E; subst; exact H. Qed.

Lemma only_returns_bind (P : B -> Prop) (m : M A) (k : A -> M B) :
  (forall a, only_returns P (k a)) -> only_returns P (bind m k).
Proof.
  intros Hk s b s'. unfold bind.
  destruct (m s) as [[a | e] s1]; [apply Hk | discriminate].
Qed.

Lemma only_returns_try_catch (P : A -> Prop) (m : M A) (h : js_error -> M A) :
  only_returns P m -> (forall e, only_returns P (h e)) ->
  only_returns P (try_catch m h).
Proof.
  intros Hm Hh s a s'. unfold try_catch.
  destruct (m s) as [[a1 | e] s1] eqn:E.
  - intros E'; inversion E'; subst. eapply Hm, E.
  - apply Hh.
Qed.

Lemma only_returns_never (P : A -> Prop) (m : M A) :
  never_returns m -> only_returns P m.
Proof.
  intros Hm s a s' E. destruct (Hm s) as (e & s1 & E1). congruence.
Qed.

Lemma try_finally_result (m : M A) (final : M unit) (s : state) :
  returns final -> result_of (try_finally m final s) = result_of (m s).
Proof.
  intros Hf. unfold try_finally, result_of.
  destruct (m s) as [c s1]. destruct (Hf s1) as (u & s2 & ->). reflexivity.
Qed.

Lemma try_finally_state (m : M A) (final : M unit) (s : state) :
  state_of (try_finally m final s) = state_of (final (state_of (m s))).
Proof.
  unfold try_finally, state_of.
  destruct (m s) as [c s1]. cbn [snd].
  destruct (final s1) as [[u | e] s2]; reflexivity.
Qed.

Lemma yields_bind_returns (b : B) (m : M A) (k : A -> M B) :
  returns m -> (forall a, yields b (k a)) -> yields b (bind m k).
Proof.
  intros Hm Hk s. unfold bind.
  destruct (Hm s) as (a & s' & ->). apply Hk.
Qed.

Lemma yields_try_catch (a : A) (m : M A) (h : js_error -> M A) :
  yields a m -> yields a (try_catch m h).
Proof.
  intros Hm s. unfold try_catch. destruct (Hm s) as (s' & ->). eauto.
Qed.

Lemma yields_try_catch_handler (e : js_error) (a : A) (m : M A) (h : js_error -> M A) :
  throws e m -> yields a (h e) -> yields a (try_catch m h).
Proof.
  intros Hm Hh s. unfold try_catch. destruct (Hm s) as (s' & ->). apply Hh.
Qed.

Lemma yields_result (a : A) (m : M A) (s : state) :
  yields a m -> result_of (m s) = Normal a.
Proof. intros H. destruct (H s) as (s' & ->). reflexivity. Qed.

Lemma throws_settle (e : js_error) : throws (A := A) e (settle (Throw e)).
Proof. intros s; eexists; reflexivity. Qed.

End Effects.

Section EffectsUnit.
Import Runtime Conditions.

Lemma returns_emit (e : event) : returns (emit e).
Proof. intros s; eexists _, _; reflexivity. Qed.

Lemma returns_console (lvl : level) (text : string) : returns (console lvl text).
Proof. apply returns_emit. Qed.

Lemma returns_update_disk (f : gset string -> gset string) : returns (update_disk f).
Proof. intros s; eexists _, _; reflexivity. Qed.

End EffectsUnit.

Create HintDb effects.

#[local] Hint Resolve returns_ret returns_emit returns_console returns_update_disk
  yields_ret yields_settle throws_throw throws_GetValue throws_settle : effects.
#[local] Hint Extern 2 (Conditions.returns (Runtime.bind _ _)) =>
  apply returns_bind; [| intros ?] : effects.
#[local] Hint Extern 2 (Conditions.returns (Runtime.try_catch _ _)) =>
  apply returns_try_catch; intros ? : effects.

(** ** The runners *)

Section Runners.
Import Runtime Host Conditions Part000.
Variable w : world.

Lemma execCommand_resolves (command : string) (answer : exec_answer) (s : state) :
  is_execution_error (exec_err answer) = false ->
  execCommand command answer s =
  (Normal (resolved_output answer), mk_state (disk s) (trace s ++ [Exec command])).
Proof. intros H. unfold execCommand, bind, emit. rewrite H. reflexivity. Qed.

Lemma execCommand_rejects (command : string) (answer : exec_answer) (s : state) :
  is_execution_error (exec_err answer) = true ->
  execCommand command answer s =
  (Throw (rejection_error answer), mk_state (disk s) (trace s ++ [Exec command])).
Proof. intros H. unfold execCommand, bind, emit. rewrite H. reflexivity. Qed.

Lemma runESLintAnalysis_returns (repoDir : string) : returns (runESLintAnalysis w repoDir).
Proof. unfold runESLintAnalysis. auto 6 with effects. Qed.

Lemma runNpmAudit_returns (repoDir : string) : returns (runNpmAudit w repoDir).
Proof. unfold runNpmAudit. auto 6 with effects. Qed.

(** C4.  Whenever the Lint Runner cannot complete, whichever library
    call raises and whatever the error is, [runESLintAnalysis] resolves,
    and with exactly errors = 20, warnings = 50, failed = true. *)
Theorem runESLintAnalysis_penalty_on_failure (repoDir : string) (s : state) :
  lint_cannot_complete w ->
  result_of (runESLintAnalysis w repoDir s) = Normal (mk_lint 20 50 (Some true)).
Proof.
  unfold lint_cannot_complete, runESLintAnalysis, result_of, try_catch, bind,
    library_call, emit, console, settle.
  destruct (eslint_require w) as [e1 |]; [reflexivity |].
  destruct (eslint_new w) as [e2 |]; [reflexivity |].
  destruct (eslint_lintFiles w) as [results | e3]; [| reflexivity].
  intros [[? H] | [[? H] | [? H]]]; discriminate.
Qed.

(** C5.  Whenever the audit command is rejected or its output cannot be
    parsed and read, whatever the error is, [runNpmAudit] resolves, and
    with exactly critical = 0, high = 0. *)
Theorem runNpmAudit_zero_on_failure (repoDir : string) (s : state) :
  audit_cannot_complete w ->
  result_of (runNpmAudit w repoDir s) = Normal (mk_audit_result 0 0).
Proof.
  intros Hfail.
  unfold runNpmAudit, result_of, try_catch, bind.
  destruct (is_execution_error (exec_err (audit_answer w))) eqn:Hexec.
  - rewrite execCommand_rejects by assumption. reflexivity.
  - rewrite execCommand_resolves by assumption. unfold settle.
    destruct Hfail as [H | [[e H] | H]]; [congruence | |]; rewrite H; reflexivity.
Qed.

End Runners.

(** C4 at the repository whose eslint package is missing. *)
Lemma runESLintAnalysis_penalty_on_failure_witness :
  Conditions.lint_cannot_complete Worlds.lint_broken /\
  Runtime.result_of (Part000.runESLintAnalysis Worlds.lint_broken "/srv/ari/temp_repos/o_r_1" Worlds.start) =
  Runtime.Normal (Part000.mk_lint 20 50 (Some true)).
Proof.
  assert (H : Conditions.lint_cannot_complete Worlds.lint_broken).
  { left. vm_compute. eauto. }
  split; [exact H |].
  exact (runESLintAnalysis_penalty_on_failure Worlds.lint_broken _ _ H).
Defined.

(** C5 at the repository for which npm cannot be spawned. *)
Lemma runNpmAudit_zero_on_failure_witness :
  Conditions.audit_cannot_complete Worlds.audit_broken /\
  Runtime.result_of (Part000.runNpmAudit Worlds.audit_broken "/srv/ari/temp_repos/o_r_1" Worlds.start) =
  Runtime.Normal (Part000.mk_audit_result 0 0).
Proof.
  assert (H : Conditions.audit_cannot_complete Worlds.audit_broken).
  { left. reflexivity. }
  split; [exact H |].
  exact (runNpmAudit_zero_on_failure Worlds.audit_broken _ _ H).
Defined.

(** ** The explanation generator *)

Section Explanation.
Import Runtime Host Conditions LLM.
Variable w : world.

Lemma generateLLMExplanation_returns (i : input) : returns (generateLLMExplanation w i).
Proof.
  intros s. unfold generateLLMExplanation.
  destruct (no_api_key w); [eexists _, _; reflexivity |].
  apply returns_try_catch. intros e. unfold explanation_failed. auto with effects.
Qed.

Lemma fetch_completion_yields (i : input) (r : response) :
  fetch_answer w = Normal r -> yields r (fetch_completion w i).
Proof.
  intros H. unfold fetch_completion. rewrite H.
  intros s. eexists. reflexivity.
Qed.

Lemma fetch_completion_throws (i : input) (e : js_error) :
  fetch_answer w = Throw e -> throws e (fetch_completion w i).
Proof.
  intros H. unfold fetch_completion. rewrite H.
  intros s. eexists. reflexivity.
Qed.

Lemma handler_yields_null (e : js_error) :
  yields JS.JNull (explanation_failed e).
Proof. intros s. eexists. reflexivity. Qed.

Lemma message_content_yields (data : JS.json) :
  data <> JS.JNull -> yields (content_of data) (message_content data).
Proof. intros H. destruct data; [congruence | ..]; apply yields_ret. Qed.

Lemma generateLLMExplanation_with_key (i : input) :
  no_api_key w = false ->
  generateLLMExplanation w i =
  try_catch
    (bind (fetch_completion w i) (fun response =>
       if negb (ok response) then
         bind (console Warn ("LLM request failed: " +:+ pretty (http_status response)))
              (fun _ => ret JS.JNull)
       else read_explanation w response))
    (explanation_failed).
Proof. intros H. unfold generateLLMExplanation. rewrite H. reflexivity. Qed.

Lemma unavailable_yields_null (i : input) :
  explanation_unavailable w -> yields JS.JNull (generateLLMExplanation w i).
Proof.
  intros Hu. destruct (no_api_key w) eqn:Hkey.
  { unfold generateLLMExplanation. rewrite Hkey. intros s. eexists. reflexivity. }
  rewrite generateLLMExplanation_with_key by assumption.
  destruct Hu as [H | [[e H] | (r & H & Hr)]]; [congruence | |].
  { eapply yields_try_catch_handler; [| apply handler_yields_null].
    apply throws_bind_l. apply fetch_completion_throws, H. }
  destruct (ok r) eqn:Hok.
  2:{ apply yields_try_catch. eapply yields_bind; [apply fetch_completion_yields, H |].
      rewrite Hok. intros s. eexists. reflexivity. }
  destruct Hr as [Hr | [[e Hr] | (data & Hd & Hr)]]; [discriminate | |].
  { eapply yields_try_catch_handler; [| apply handler_yields_null].
    eapply throws_bind_yield; [apply fetch_completion_yields, H |].
    rewrite Hok. unfold read_explanation. rewrite Hr.
    apply throws_bind_l, throws_settle. }
  destruct Hr as [[-> | Hr] | (c & e & Hc & Hp)].
  - eapply yields_try_catch_handler; [| apply handler_yields_null].
    eapply throws_bind_yield; [apply fetch_completion_yields, H |].
    rewrite Hok. unfold read_explanation. rewrite Hd.
    eapply throws_bind_yield; [apply yields_settle |].
    apply throws_bind_l, throws_throw.
  - assert (Hcases : data = JS.JNull \/ data <> JS.JNull)
      by (destruct data; (left; reflexivity) || (right; discriminate)).
    destruct Hcases as [-> | Hnn].
    + eapply yields_try_catch_handler; [| apply handler_yields_null].
      eapply throws_bind_yield; [apply fetch_completion_yields, H |].
      rewrite Hok. unfold read_explanation. rewrite Hd.
      eapply throws_bind_yield; [apply yields_settle |].
      apply throws_bind_l, throws_throw.
    + apply yields_try_catch.
      eapply yields_bind; [apply fetch_completion_yields, H |].
      rewrite Hok. unfold read_explanation. rewrite Hd.
      eapply yields_bind; [apply yields_settle |].
      eapply yields_bind; [apply message_content_yields, Hnn |].
      rewrite Hr. apply yields_ret.
  - assert (Hnn : data <> JS.JNull) by (intros ->; discriminate Hc).
    destruct (JS.truthy (Some c)) eqn:Ht.
    + eapply yields_try_catch_handler; [| apply handler_yields_null].
      eapply throws_bind_yield; [apply fetch_completion_yields, H |].
      rewrite Hok. unfold read_explanation. rewrite Hd.
      eapply throws_bind_yield; [apply yields_settle |].
      eapply throws_bind_yield; [apply message_content_yields, Hnn |].
      rewrite Hc, Ht, Hp. apply throws_settle.
    + apply yields_try_catch.
      eapply yields_bind; [apply fetch_completion_yields, H |].
      rewrite Hok. unfold read_explanation. rewrite Hd.
      eapply yields_bind; [apply yields_settle |].
      eapply yields_bind; [apply message_content_yields, Hnn |].
      rewrite Hc, Ht. apply yields_ret.
Qed.

(** C8.  [generateLLMExplanation] never throws to its caller, and it
    returns [null] whenever the API key is absent, the request fails or
    comes back with a status that is not ok, the body cannot be read, the
    response carries no message content, or the content is not parseable
    JSON. *)
Theorem generateLLMExplanation_null_when_unavailable (i : input) (s : state) :
  (exists v, result_of (generateLLMExplanation w i s) = Normal v) /\
  (explanation_unavailable w ->
   result_of (generateLLMExplanation w i s) = Normal JS.JNull).
Proof.
  split.
  - destruct (generateLLMExplanation_returns i s) as (v & s' & E).
    exists v. unfold result_of. rewrite E. reflexivity.
  - intros Hu. apply yields_result, unavailable_yields_null, Hu.
Qed.

(** C9, as the code has it.  With an API key and an ok response whose
    message content is truthy and parses as JSON, [generateLLMExplanation]
    returns the parsed value itself, whatever its shape. *)
Theorem generateLLMExplanation_returns_parsed_content
    (i : input) (s : state) (v : JS.json) :
  content_parses_to w v ->
  result_of (generateLLMExplanation w i s) = Normal v.
Proof.
  intros (Hkey & r & data & c & Hf & Hok & Hb & Hd & Hc & Ht & Hp).
  apply yields_result.
  rewrite generateLLMExplanation_with_key by assumption.
  apply yields_try_catch.
  eapply yields_bind; [apply fetch_completion_yields, Hf |].
  rewrite Hok. unfold read_explanation. rewrite Hb.
  eapply yields_bind; [apply yields_settle |].
  eapply yields_bind; [apply message_content_yields, Hd |].
  rewrite Hc, Ht, Hp. apply yields_settle.
Qed.

End Explanation.

(** C8 at the world whose endpoint is unreachable. *)
Lemma generateLLMExplanation_null_when_unavailable_witness :
  Conditions.explanation_unavailable Worlds.llm_unreachable /\
  Runtime.result_of
    (LLM.generateLLMExplanation Worlds.llm_unreachable Worlds.sample_input Worlds.start) =
  Runtime.Normal JS.JNull.
Proof.
  assert (H : Conditions.explanation_unavailable Worlds.llm_unreachable).
  { right; left. eexists. reflexivity. }
  split; [exact H |].
  exact (proj2 (generateLLMExplanation_null_when_unavailable
                  Worlds.llm_unreachable Worlds.sample_input Worlds.start) H).
Defined.

(** C9 as stated fails: the model answers with an empty object, which is
    JSON but has none of the four fields of an Explanation, and the
    generator returns that object, not [null]. *)
Lemma generateLLMExplanation_deviating_shape_counterexample :
  Host.JSON_parse Worlds.healthy Worlds.canned_content = Runtime.Normal (JS.JObj []) /\
  LLM.matches_Explanation (JS.JObj []) = false /\
  Runtime.result_of
    (LLM.generateLLMExplanation Worlds.healthy Worlds.sample_input Worlds.start) =
  Runtime.Normal (JS.JObj []) /\
  JS.JObj [] <> JS.JNull.
Proof. repeat split; try reflexivity. discriminate. Qed.

(** The amended C9 at the same world. *)
Lemma generateLLMExplanation_returns_parsed_content_witness :
  Conditions.content_parses_to Worlds.healthy (JS.JObj []) /\
  Runtime.result_of
    (LLM.generateLLMExplanation Worlds.healthy Worlds.sample_input Worlds.start) =
  Runtime.Normal (JS.JObj []).
Proof.
  assert (H : Conditions.content_parses_to Worlds.healthy (JS.JObj [])).
  { split; [reflexivity |].
    eexists _, _, _. repeat split; try reflexivity. discriminate. }
  split; [exact H |].
  exact (generateLLMExplanation_returns_parsed_content
           Worlds.healthy Worlds.sample_input Worlds.start (JS.JObj []) H).
Defined.

(** ** The orchestrator *)

Section Orchestrator.
Import Runtime Host Conditions Part000.
Variable w : world.

#[local] Hint Resolve runESLintAnalysis_returns runNpmAudit_returns : effects.

Lemma execCommand_returns_or_throws (command : string) (answer : exec_answer) :
  is_execution_error (exec_err answer) = false ->
  yields (resolved_output answer) (execCommand command answer).
Proof. intros H s. rewrite execCommand_resolves by assumption. eauto. Qed.

(** The acceptance literal cannot be built while [existingResult] is
    unbound. *)
Lemma analyse_never_returns (amb : ambient) (owner repo tempDir : string)
    (size : option Z) :
  amb_existingResult amb = None ->
  never_returns (analyse w amb owner repo tempDir size).
Proof.
  intros H. unfold analyse. rewrite H. cbv zeta.
  repeat first
    [ apply never_returns_bind_l; eapply throws_never_returns; apply throws_GetValue
    | apply never_returns_bind_r; intros ? ].
Qed.

Lemma attempt_returns (amb : ambient) (owner repo tempDir : string) :
  returns (attempt w amb owner repo tempDir).
Proof. unfold attempt. apply returns_try_catch. auto with effects. Qed.

Lemma attempt_only_rejects (amb : ambient) (owner repo tempDir : string) :
  amb_existingResult amb = None ->
  only_returns (fun r => isValid r = false) (attempt w amb owner repo tempDir).
Proof.
  intros H. unfold attempt. cbv zeta.
  apply only_returns_try_catch; [| intros e; apply only_returns_ret; reflexivity].
  do 4 (apply only_returns_bind; intros ?).
  destruct (JS.gt_number _ _).
  - apply only_returns_ret; reflexivity.
  - apply only_returns_try_catch.
    + apply only_returns_never, analyse_never_returns, H.
    + intros e. destruct (bool_decide _); apply only_returns_ret; reflexivity.
Qed.

Lemma cleanup_removes (tempDir : string) (s : state) :
  rm_answer w = None ->
  cleanup w tempDir s =
  (Normal tt,
   mk_state (disk s ∖ {[tempDir]})
     (trace s ++ [Rm tempDir;
                  Console Log ("Cleaned up temp directory: " +:+ tempDir)])).
Proof.
  intros H. unfold cleanup, library_call. rewrite H.
  cbv [try_catch bind emit console update_disk ret throw disk trace].
  rewrite <- app_assoc. reflexivity.
Qed.

Lemma cleanup_fails (tempDir : string) (s : state) (e : js_error) :
  rm_answer w = Some e ->
  cleanup w tempDir s =
  (Normal tt,
   mk_state (disk s)
     (trace s ++ [Rm tempDir;
                  Console Err ("Warning: Failed to clean up temp directory " +:+
                               tempDir +:+ ": " +:+ err_message e)])).
Proof.
  intros H. unfold cleanup, library_call. rewrite H.
  cbv [try_catch bind emit console update_disk ret throw disk trace].
  rewrite <- app_assoc. reflexivity.
Qed.

Lemma cleanup_returns (tempDir : string) : returns (cleanup w tempDir).
Proof.
  intros s. destruct (rm_answer w) as [e |] eqn:H.
  - rewrite (cleanup_fails _ _ e H). eauto.
  - rewrite (cleanup_removes _ _ H). eauto.
Qed.

Lemma validate_result (amb : ambient) (owner repo : string) (s : state) :
  result_of (validateRepoByCloning_with w amb owner repo s) =
  result_of (attempt w amb owner repo (tempDir_of w owner repo) s).
Proof.
  unfold validateRepoByCloning_with. apply try_finally_result, cleanup_returns.
Qed.

Lemma validate_state (amb : ambient) (owner repo : string) (s : state) :
  state_of (validateRepoByCloning_with w amb owner repo s) =
  state_of (cleanup w (tempDir_of w owner repo)
              (state_of (attempt w amb owner repo (tempDir_of w owner repo) s))).
Proof. unfold validateRepoByCloning_with. apply try_finally_state. Qed.

(** Whatever the ambient scope binds [generateLLMExplanation] to, no run
    is accepted while [existingResult] is unbound. *)
Lemma validate_with_never_accepts (amb : ambient) (owner repo : string) (s : state) :
  amb_existingResult amb = None ->
  exists r,
    result_of (validateRepoByCloning_with w amb owner repo s) = Normal r /\
    isValid r = false.
Proof.
  intros H. rewrite validate_result.
  destruct (attempt_returns amb owner repo (tempDir_of w owner repo) s)
    as (r & s' & E).
  exists r. unfold result_of. rewrite E. split; [reflexivity |].
  eapply attempt_only_rejects; eassumption.
Qed.

(** The analysers and the scoring always complete. *)
Lemma analysers_return (tempDir : string) :
  returns
    (bind (console Log ("Installing dependencies in " +:+ tempDir +:+ "..."))
       (fun _ =>
        bind (try_catch
                (bind (execCommand (installCommand_of tempDir) (install_answer w))
                   (fun _ => console Log "Dependencies installed."))
                (fun installError =>
                   console Warn ("Dependency installation failed: " +:+
                                 err_message installError)))
          (fun _ =>
           bind (runESLintAnalysis w tempDir) (fun eslintResult =>
           bind (runNpmAudit w tempDir) (fun auditResult =>
             ret (Score.mk_analysis
                    (Score.mk_eslint (errors eslintResult) (warnings eslintResult))
                    (Score.mk_audit (critical auditResult) (high auditResult)))))))).
Proof. auto 8 with effects. Qed.

(** Past the scoring, the first identifier the ambient scope must supply
    is [generateLLMExplanation]. *)
Lemma analyse_throws_unbound_generator (amb : ambient)
    (owner repo tempDir : string) (size : option Z) :
  package_json_parses w ->
  amb_generateLLMExplanation amb = None ->
  throws (ReferenceError "generateLLMExplanation")
    (analyse w amb owner repo tempDir size).
Proof.
  intros (content & pkg & Hr & Hp) Hg. unfold analyse. cbv zeta.
  rewrite Hr, Hg.
  eapply throws_bind_yield.
  { eapply yields_bind_returns; [apply returns_emit | intros; apply yields_settle]. }
  rewrite Hp.
  eapply throws_bind_yield; [apply yields_settle |].
  apply throws_bind_r; [apply returns_console | intros _].
  apply throws_bind_r; [apply analysers_return | intros a].
  apply throws_bind_l, throws_GetValue.
Qed.

(** Were the generator bound, the next one is [existingResult]. *)
Lemma analyse_throws_unbound_existingResult (amb : ambient)
    (generate : LLM.input -> M JS.json)
    (owner repo tempDir : string) (size : option Z) :
  package_json_parses w ->
  amb_generateLLMExplanation amb = Some generate ->
  (forall i, returns (generate i)) ->
  amb_existingResult amb = None ->
  throws (ReferenceError "existingResult")
    (analyse w amb owner repo tempDir size).
Proof.
  intros (content & pkg & Hr & Hp) Hg Hret He. unfold analyse. cbv zeta.
  rewrite Hr, Hg, He.
  eapply throws_bind_yield.
  { eapply yields_bind_returns; [apply returns_emit | intros; apply yields_settle]. }
  rewrite Hp.
  eapply throws_bind_yield; [apply yields_settle |].
  apply throws_bind_r; [apply returns_console | intros _].
  apply throws_bind_r; [apply analysers_return | intros a].
  eapply throws_bind_yield; [apply yields_ret |].
  apply throws_bind_r; [apply Hret | intros explanation].
  apply throws_bind_l, throws_GetValue.
Qed.

(** A fault of the inner block that is not ENOENT is reported as invalid
    JSON. *)
Lemma attempt_reports_fault (amb : ambient) (owner repo tempDir : string)
    (e : js_error) :
  size_check_passes w ->
  err_code e = None ->
  throws e (analyse w amb owner repo tempDir (measured_size w)) ->
  yields (rejection ("'package.json' found but is NOT valid JSON: " +:+ err_message e))
    (attempt w amb owner repo tempDir).
Proof.
  intros (Hclone & Hsize & Hgt) Hcode Hthrow. unfold attempt. cbv zeta.
  apply yields_try_catch.
  apply yields_bind_returns; [apply returns_console | intros _].
  apply yields_bind_returns; [apply returns_update_disk | intros _].
  eapply yields_bind; [apply execCommand_returns_or_throws, Hclone |].
  eapply yields_bind; [apply execCommand_returns_or_throws, Hsize |].
  fold (measured_size w). rewrite Hgt.
  eapply yields_try_catch_handler; [exact Hthrow |].
  rewrite Hcode, bool_decide_eq_false_2 by discriminate.
  apply yields_ret.
Qed.

(** C1, as the code has it.  No run is accepted: every run resolves to
    an object whose [isValid] is false.  When the clone succeeds, the
    size check passes and package.json is read and parses, the run gets
    past the analysers and the scoring and stops at the call of
    [generateLLMExplanation], an identifier part_000 neither declares nor
    imports; the read/parse handler reports the ReferenceError as invalid
    JSON, and the acceptance literal with its spread of [existingResult]
    is not reached. *)
Theorem validateRepoByCloning_never_accepts (owner repo : string) (s : state) :
  (exists r,
     result_of (validateRepoByCloning w owner repo s) = Normal r /\
     isValid r = false) /\
  (reaches_scoring w ->
   result_of (validateRepoByCloning w owner repo s) =
   Normal (rejection "'package.json' found but is NOT valid JSON: generateLLMExplanation is not defined")).
Proof.
  split.
  - apply validate_with_never_accepts. reflexivity.
  - intros [Hsize Hpkg]. unfold validateRepoByCloning. rewrite validate_result.
    apply yields_result.
    apply (attempt_reports_fault part_000_ambient owner repo _
             (ReferenceError "generateLLMExplanation") Hsize eq_refl).
    apply analyse_throws_unbound_generator; [exact Hpkg | reflexivity].
Qed.

(** With the generator imported, the same runs stop at the spread of
    [existingResult] instead. *)
Lemma validate_with_generator_stops_at_existingResult
    (generate : LLM.input -> M JS.json) (owner repo : string) (s : state) :
  (forall i, returns (generate i)) ->
  reaches_scoring w ->
  result_of (validateRepoByCloning_with w (mk_ambient (Some generate) None) owner repo s) =
  Normal (rejection "'package.json' found but is NOT valid JSON: existingResult is not defined").
Proof.
  intros Hret [Hsize Hpkg]. rewrite validate_result.
  apply yields_result.
  apply (attempt_reports_fault _ owner repo _
           (ReferenceError "existingResult") Hsize eq_refl).
  eapply analyse_throws_unbound_existingResult; eauto.
Qed.

(** The size guard: nothing past the measurement is attempted. *)
Lemma attempt_oversized (amb : ambient) (owner repo tempDir : string) (s : state) :
  size_exceeds w ->
  attempt w amb owner repo tempDir s =
  (Normal (rejection (size_exceeded_message (measured_size w))),
   mk_state
     (if clone_leaves_dir w then {[tempDir]} ∪ disk s else disk s)
     (trace s ++ [Console Log (cloning_message (repoUrl_of owner repo) tempDir);
                  Exec (cloneCommand_of (repoUrl_of owner repo) tempDir);
                  Exec (sizeCommand_of w tempDir)])).
Proof.
  intros (Hclone & Hsize & n & Hn & Hmax).
  assert (Hgt : JS.gt_number (measured_size w) MAX_CLONE_SIZE_BYTES = true).
  { rewrite Hn. apply Z.ltb_lt, Hmax. }
  unfold attempt. cbv zeta.
  cbv [try_catch bind console emit update_disk].
  rewrite execCommand_resolves by assumption.
  rewrite execCommand_resolves by assumption.
  fold (measured_size w). rewrite Hgt.
  cbv [ret disk trace]. repeat rewrite <- app_assoc. reflexivity.
Qed.

End Orchestrator.

Section Guarantees.
Import Runtime Host Conditions Part000.
Variable w : world.

Lemma removed_from_disk (tempDir : string) (d : gset string) :
  tempDir ∉ d ∖ {[tempDir]}.
Proof. apply not_elem_of_difference. right. apply elem_of_singleton. reflexivity. Qed.

(** C6, as the code has it.  When the measured size of the fetched tree
    exceeds 50 MiB the run resolves to the size rejection, having only
    cloned and measured: the package.json is not read, nothing is
    installed, neither analyser runs, and the removal of the working area
    comes next; the working area is gone from the disk when that removal
    does not fail. *)
Theorem oversized_clone_rejected_before_analysis (owner repo : string) (s : state) :
  size_exceeds w ->
  let tempDir := tempDir_of w owner repo in
  let run := validateRepoByCloning w owner repo s in
  result_of run = Normal (rejection (size_exceeded_message (measured_size w))) /\
  (exists report,
     trace (state_of run) =
     trace s ++ [Console Log (cloning_message (repoUrl_of owner repo) tempDir);
                 Exec (cloneCommand_of (repoUrl_of owner repo) tempDir);
                 Exec (sizeCommand_of w tempDir);
                 Rm tempDir;
                 report]) /\
  (rm_answer w = None -> tempDir ∉ disk (state_of run)).
Proof.
  intros Hbig tempDir run. subst run. unfold validateRepoByCloning.
  rewrite validate_result, validate_state.
  fold tempDir. rewrite (attempt_oversized w _ _ _ _ _ Hbig).
  split; [reflexivity |]. cbn [state_of result_of fst snd].
  destruct (rm_answer w) as [e |] eqn:Hrm.
  - rewrite (cleanup_fails w _ _ e Hrm). cbn [snd trace disk]. split.
    + eexists. rewrite <- app_assoc. reflexivity.
    + discriminate.
  - rewrite (cleanup_removes w _ _ Hrm). cbn [snd trace disk]. split.
    + eexists. rewrite <- app_assoc. reflexivity.
    + intros _. apply removed_from_disk.
Qed.

(** C7.  Every run resolves, and on every exit path the removal of the
    working area is the last thing done before it does: when the removal
    succeeds the working area is gone from the disk, when it fails the
    failure is logged, and in neither case does it change the result. *)
Theorem working_area_removed_on_every_exit (owner repo : string) (s : state) :
  let tempDir := tempDir_of w owner repo in
  let run := validateRepoByCloning w owner repo s in
  (exists r, result_of run = Normal r) /\
  (exists before report,
     trace (state_of run) = before ++ [Rm tempDir; report]) /\
  (rm_answer w = None ->
   (tempDir ∉ disk (state_of run)) /\
   last (trace (state_of run)) =
   Some (Console Log ("Cleaned up temp directory: " +:+ tempDir))) /\
  (forall e, rm_answer w = Some e ->
   last (trace (state_of run)) =
   Some (Console Err ("Warning: Failed to clean up temp directory " +:+
                      tempDir +:+ ": " +:+ err_message e))) /\
  (forall a,
     result_of (validateRepoByCloning (Worlds.with_rm_answer a w) owner repo s) =
     result_of run).
Proof.
  intros tempDir run. subst run. unfold validateRepoByCloning.
  split; [| split; [| split; [| split]]].
  - destruct (validate_with_never_accepts w part_000_ambient owner repo s eq_refl)
      as (r & Hr & _). eauto.
  - rewrite validate_state. fold tempDir.
    destruct (rm_answer w) as [e |] eqn:Hrm.
    + rewrite (cleanup_fails w _ _ e Hrm). cbn [state_of snd trace]. eauto.
    + rewrite (cleanup_removes w _ _ Hrm). cbn [state_of snd trace]. eauto.
  - intros Hrm. rewrite validate_state. fold tempDir.
    rewrite (cleanup_removes w _ _ Hrm). cbn [state_of snd trace disk].
    split; [apply removed_from_disk |].
    rewrite last_app. reflexivity.
  - intros e Hrm. rewrite validate_state. fold tempDir.
    rewrite (cleanup_fails w _ _ e Hrm). cbn [state_of snd trace disk].
    rewrite last_app. reflexivity.
  - intros a.
    rewrite (validate_result (Worlds.with_rm_answer a w)), (validate_result w).
    reflexivity.
Qed.

End Guarantees.

(** C1 as stated fails in its account of the fault.  On the healthy
    repository the clone succeeds, the size check passes, package.json
    parses, analysis and scoring complete, and the reported message names
    [generateLLMExplanation], not [existingResult]. *)
Lemma validateRepoByCloning_message_counterexample :
  Conditions.reaches_scoring Worlds.healthy /\
  exists r,
    Runtime.result_of (Part000.validateRepoByCloning Worlds.healthy "o" "r" Worlds.start) =
    Runtime.Normal r /\
    Part000.message r =
    "'package.json' found but is NOT valid JSON: generateLLMExplanation is not defined" /\
    Part000.message r <>
    "'package.json' found but is NOT valid JSON: existingResult is not defined".
Proof.
  split.
  - repeat split; try reflexivity. eexists _, _. split; reflexivity.
  - eexists. split; [vm_compute; reflexivity |]. split; [reflexivity | discriminate].
Qed.

(** The amended C1 at the healthy repository. *)
Lemma validateRepoByCloning_never_accepts_witness :
  Conditions.reaches_scoring Worlds.healthy /\
  Runtime.result_of (Part000.validateRepoByCloning Worlds.healthy "o" "r" Worlds.start) =
  Runtime.Normal
    (Part000.rejection
       "'package.json' found but is NOT valid JSON: generateLLMExplanation is not defined").
Proof.
  assert (H : Conditions.reaches_scoring Worlds.healthy).
  { repeat split; try reflexivity. eexists _, _. split; reflexivity. }
  split; [exact H |].
  exact (proj2 (validateRepoByCloning_never_accepts Worlds.healthy "o" "r" Worlds.start) H).
Defined.

(** C6 as stated fails where the removal fails: the 60 MiB clone is
    rejected, and its directory is still on the disk after the run. *)
Lemma oversized_clone_left_on_disk_counterexample :
  Conditions.size_exceeds Worlds.oversized_undeletable /\
  Runtime.result_of
    (Part000.validateRepoByCloning Worlds.oversized_undeletable "o" "r" Worlds.start) =
  Runtime.Normal
    (Part000.rejection "Clone Failed: Repository size (60.00 MB) exceeds the 50 MB limit.") /\
  Part000.tempDir_of Worlds.oversized_undeletable "o" "r" ∈
  Runtime.disk
    (Runtime.state_of
       (Part000.validateRepoByCloning Worlds.oversized_undeletable "o" "r" Worlds.start)).
Proof.
  split; [| split].
  - repeat split; try reflexivity. exists 62914560. split; reflexivity.
  - vm_compute. reflexivity.
  - apply (bool_decide_unpack _). vm_compute. exact I.
Qed.

(** The amended C6 at the 60 MiB clone whose removal succeeds. *)
Lemma oversized_clone_rejected_before_analysis_witness :
  Conditions.size_exceeds Worlds.oversized /\
  Runtime.result_of (Part000.validateRepoByCloning Worlds.oversized "o" "r" Worlds.start) =
  Runtime.Normal
    (Part000.rejection
       (Part000.size_exceeded_message (Conditions.measured_size Worlds.oversized))) /\
  Part000.tempDir_of Worlds.oversized "o" "r" ∉
  Runtime.disk
    (Runtime.state_of (Part000.validateRepoByCloning Worlds.oversized "o" "r" Worlds.start)).
Proof.
  assert (H : Conditions.size_exceeds Worlds.oversized).
  { repeat split; try reflexivity. exists 62914560. split; reflexivity. }
  split; [exact H |].
  destruct (oversized_clone_rejected_before_analysis Worlds.oversized "o" "r" Worlds.start H)
    as (Hr & _ & Hd).
  split; [exact Hr | exact (Hd eq_refl)].
Defined.

(** C7 at the healthy repository, whose removal succeeds. *)
Lemma working_area_removed_on_every_exit_witness :
  Host.rm_answer Worlds.healthy = None /\
  Part000.tempDir_of Worlds.healthy "o" "r" ∉
  Runtime.disk
    (Runtime.state_of (Part000.validateRepoByCloning Worlds.healthy "o" "r" Worlds.start)).
Proof.
  split; [reflexivity |].
  exact (proj1 (proj1 (proj2 (proj2
           (working_area_removed_on_every_exit Worlds.healthy "o" "r" Worlds.start)))
           eq_refl)).
Defined.

(** The exit paths one by one: the result of each, and the removal with
    its log line closing the trace. *)
Example exit_after_clone_failure :
  let run := Part000.validateRepoByCloning Worlds.clone_refused "o" "r" Worlds.start in
  Runtime.result_of run =
  Runtime.Normal
    (Part000.rejection
       ("Clone Failed: Command failed: Command failed: git clone" +:+ JS.newline +:+
        "Stderr: fatal: repository not found...")) /\
  drop 2 (Runtime.trace (Runtime.state_of run)) =
  [Runtime.Rm "/srv/ari/temp_repos/o_r_1700000000000";
   Runtime.Console Runtime.Log
     "Cleaned up temp directory: /srv/ari/temp_repos/o_r_1700000000000"].
Proof. split; vm_compute; reflexivity. Qed.

Example exit_after_missing_package_json :
  let run := Part000.validateRepoByCloning Worlds.no_package_json "o" "r" Worlds.start in
  Runtime.result_of run =
  Runtime.Normal (Part000.rejection "'package.json' NOT found in the repository.") /\
  drop 4 (Runtime.trace (Runtime.state_of run)) =
  [Runtime.Rm "/srv/ari/temp_repos/o_r_1700000000000";
   Runtime.Console Runtime.Log
     "Cleaned up temp directory: /srv/ari/temp_repos/o_r_1700000000000"].
Proof. split; vm_compute; reflexivity. Qed.

Example exit_after_invalid_package_json :
  let run :=
    Part000.validateRepoByCloning Worlds.broken_package_json "o" "r" Worlds.start in
  Runtime.result_of run =
  Runtime.Normal
    (Part000.rejection
       "'package.json' found but is NOT valid JSON: Unexpected token in JSON") /\
  drop 4 (Runtime.trace (Runtime.state_of run)) =
  [Runtime.Rm "/srv/ari/temp_repos/o_r_1700000000000";
   Runtime.Console Runtime.Log
     "Cleaned up temp directory: /srv/ari/temp_repos/o_r_1700000000000"].
Proof. split; vm_compute; reflexivity. Qed.

Example exit_after_analysis :
  let run := Part000.validateRepoByCloning Worlds.healthy "o" "r" Worlds.start in
  drop 12 (Runtime.trace (Runtime.state_of run)) =
  [Runtime.Rm "/srv/ari/temp_repos/o_r_1700000000000";
   Runtime.Console Runtime.Log
     "Cleaned up temp directory: /srv/ari/temp_repos/o_r_1700000000000"].
Proof. vm_compute; reflexivity. Qed.

(** C10 against the code.  On a repository whose eslint package cannot be
    loaded the Lint Runner returns its penalty with [failed] set, yet the
    merge keeps the two counts only: [staticAnalysisResults.eslint.failed]
    reads a property that is not there, so the context of the explanation
    request says [eslint_failed: false] (with the generator in scope, the
    request is sent with exactly that context and with the four counts as
    metrics), and part_000 as it stands does not reach the generator at
    all. *)
Theorem lint_failure_flag_dropped_by_merge :
  let w := Worlds.lint_broken in
  let tempDir := Part000.tempDir_of w "o" "r" in
  Runtime.result_of (Part000.runESLintAnalysis w tempDir Worlds.start) =
  Runtime.Normal (Part000.mk_lint 20 50 (Some true)) /\
  (forall e, Part000.or_false (Part000.eslint_failed_property e) = false) /\
  In (Runtime.Fetch LLM.endpoint "Bearer sk-test" LLM.OPENAI_MODEL
        (JS.trim LLM.systemPrompt)
        (JS.trim
           (LLM.userPrompt
              (LLM.mk_input 53 Score.HighRisk (Score.mk_metrics 20 50 1 0)
                 (Some (LLM.mk_context (Some false) (Some false)))))))
     (Runtime.trace
        (Runtime.state_of
           (Part000.validateRepoByCloning_with w
              (Part000.mk_ambient (Some (LLM.generateLLMExplanation w)) None)
              "o" "r" Worlds.start))) /\
  Runtime.result_of (Part000.validateRepoByCloning w "o" "r" Worlds.start) =
  Runtime.Normal
    (Part000.rejection
       "'package.json' found but is NOT valid JSON: generateLLMExplanation is not defined").
Proof.
  cbv zeta. split; [vm_compute; reflexivity |].
  split; [intros e; reflexivity |].
  split; [| vm_compute; reflexivity].
  vm_compute. repeat (first [left; reflexivity | right]).
Qed.

(** * Further properties *)

(** ** The scoring engine, in integers *)

Section ScoringMore.
Import Score Conditions.


(** X2.  More findings never score higher: the score is antitone in each
    of the four counts. *)
Theorem ari_score_antitone (e w c h e' w' c' h' : Z) :
  e <= e' -> w <= w' -> c <= c' -> h <= h' ->
  ari_score (computeAriScore (counts e' w' c' h')) <=
  ari_score (computeAriScore (counts e w c h)).
Proof.
  intros He Hw Hc Hh. rewrite !ari_score_quarters. unfold clamped_quarters.
  apply Z.div_le_mono; lia.
Qed.

(** X3.  The ends of the scale: the score is 100 exactly when at most two
    quarter points are deducted (two warnings cost nothing), and 0 exactly
    when at least 399 are. *)
Theorem ari_score_extremes (e w c h : Z) :
  (ari_score (computeAriScore (counts e w c h)) = 100 <-> (4 * e + w + 60 * c + 20 * h) <= 2) /\
  (ari_score (computeAriScore (counts e w c h)) = 0 <-> 399 <= (4 * e + w + 60 * c + 20 * h)).
Proof.
  rewrite ari_score_quarters. unfold clamped_quarters.
  set (d := 4 * e + w + 60 * c + 20 * h).
  pose proof (Z.div_mod (Z.max 0 (Z.min 400 (400 - d)) + 2) 4 ltac:(lia)) as Hdm.
  pose proof (Z.mod_pos_bound (Z.max 0 (Z.min 400 (400 - d)) + 2) 4 ltac:(lia)) as Hmb.
  split; split; intros H; lia.
Qed.

(** X4.  The status read off the counts: Low Risk exactly up to 82 quarter
    points of deduction (20.5 points), High Risk exactly from 163 (40.75
    points), Moderate Risk in between. *)
Theorem status_by_deduction (e w c h : Z) :
  let s := status (computeAriScore (counts e w c h)) in
  (s = LowRisk <-> (4 * e + w + 60 * c + 20 * h) <= 82) /\
  (s = ModerateRisk <-> 83 <= (4 * e + w + 60 * c + 20 * h) <= 162) /\
  (s = HighRisk <-> 163 <= (4 * e + w + 60 * c + 20 * h)).
Proof.
  cbv zeta. rewrite status_by_score. cbv zeta.
  rewrite ari_score_quarters. unfold clamped_quarters.
  set (d := 4 * e + w + 60 * c + 20 * h).
  pose proof (Z.div_mod (Z.max 0 (Z.min 400 (400 - d)) + 2) 4 ltac:(lia)) as Hdm.
  pose proof (Z.mod_pos_bound (Z.max 0 (Z.min 400 (400 - d)) + 2) 4 ltac:(lia)) as Hmb.
  destruct (Z.leb_spec 80 ((Z.max 0 (Z.min 400 (400 - d)) + 2) / 4));
    destruct (Z.leb_spec 60 ((Z.max 0 (Z.min 400 (400 - d)) + 2) / 4));
    repeat split; intros; try discriminate; try reflexivity; lia.
Qed.

End ScoringMore.

(** X2 on a concrete pair of inputs. *)
Lemma ari_score_antitone_witness :
  Score.ari_score (Score.computeAriScore (Score.counts 11 9 1 2)) <=
  Score.ari_score (Score.computeAriScore (Score.counts 10 8 1 2)).
Proof.
  apply (ari_score_antitone 10 8 1 2 11 9 1 2); lia.
Defined.

(** ** The runners on their own *)

Section RunnersMore.
Import Runtime Host Conditions Paths Part000.
Variable w : world.

Lemma lint_failure_result (repoDir : string) (s : state) :
  lint_cannot_complete w ->
  result_of (runESLintAnalysis w repoDir s) = Normal (mk_lint 20 50 (Some true)).
Proof.
  unfold lint_cannot_complete, runESLintAnalysis, result_of, try_catch, bind,
    library_call, emit, console, settle.
  destruct (eslint_require w) as [e1 |]; [reflexivity |].
  destruct (eslint_new w) as [e2 |]; [reflexivity |].
  destruct (eslint_lintFiles w) as [results | e3]; [| reflexivity].
  intros [[? H] | [[? H] | [? H]]]; discriminate.
Qed.

Lemma lint_loop_totals (results : list lint_file) (errors warnings : Z) :
  foldl (fun '(errors, warnings) result =>
           (errors + file_errorCount result, warnings + file_warningCount result))
        (errors, warnings) results =
  (errors + total_errors results, warnings + total_warnings results).
Proof.
  unfold total_errors, total_warnings. revert errors warnings.
  induction results as [| r results IH]; intros errors warnings;
    cbn [foldl foldr].
  - f_equal; lia.
  - rewrite IH. f_equal; lia.
Qed.

(** X5.  A repository whose lint cannot run is never rated Low Risk:
    scored with the penalty the Lint Runner returns and any non-negative
    vulnerability counts, it gets at most 68. *)
Theorem failed_lint_caps_score (repoDir : string) (s : state) (c h : Z) :
  lint_cannot_complete w -> 0 <= c -> 0 <= h ->
  exists r,
    result_of (runESLintAnalysis w repoDir s) = Normal r /\
    let scored :=
      Score.computeAriScore
        (Score.mk_analysis (Score.mk_eslint (errors r) (warnings r))
                           (Score.mk_audit c h)) in
    Score.ari_score scored <= 68 /\ Score.status scored <> Score.LowRisk.
Proof.
  intros Hfail Hc Hh. eexists. split; [apply lint_failure_result, Hfail |].
  cbn [errors warnings]. cbv zeta.
  change (Score.mk_analysis (Score.mk_eslint 20 50) (Score.mk_audit c h))
    with (Score.counts 20 50 c h).
  rewrite status_by_score. cbv zeta. rewrite ari_score_quarters.
  unfold clamped_quarters.
  pose proof (Z.div_mod (Z.max 0 (Z.min 400 (400 - (4 * 20 + 50 + 60 * c + 20 * h))) + 2) 4
                ltac:(lia)) as Hdm.
  pose proof (Z.mod_pos_bound
                (Z.max 0 (Z.min 400 (400 - (4 * 20 + 50 + 60 * c + 20 * h))) + 2) 4
                ltac:(lia)) as Hmb.
  split; [lia |].
  destruct (Z.leb_spec 80
              ((Z.max 0 (Z.min 400 (400 - (4 * 20 + 50 + 60 * c + 20 * h))) + 2) / 4));
    [lia |].
  destruct (_ <=? _); discriminate.
Qed.

(** X6.  When the library loads, the linter is built and the files are
    linted, [runESLintAnalysis] returns the totals of the files' error and
    warning counts (0 and 0 when no file matches) without a [failed]
    property, having made its three library calls and nothing else. *)
Theorem runESLintAnalysis_totals (repoDir : string) (s : state)
    (results : list lint_file) :
  lint_completes w results ->
  runESLintAnalysis w repoDir s =
  (Normal (mk_lint (total_errors results) (total_warnings results) None),
   mk_state (disk s)
     (trace s ++ [LoadModule "eslint"; NewESLint repoDir; LintFiles ["**/*.js"]])).
Proof.
  intros (Hreq & Hnew & Hlint).
  unfold runESLintAnalysis, library_call. rewrite Hreq, Hnew, Hlint.
  cbv [try_catch bind emit settle ret disk trace].
  rewrite lint_loop_totals. cbn [Z.add].
  repeat rewrite <- app_assoc. reflexivity.
Qed.

Lemma audit_not_an_execution_error :
  (exec_err (audit_answer w) = None \/
   exists msg, exec_err (audit_answer w) = Some (mk_exec_error (ExitStatus 1) msg)) ->
  is_execution_error (exec_err (audit_answer w)) = false.
Proof. intros [-> | [msg ->]]; reflexivity. Qed.

(** X7.  When npm audit exits with status 0 or with status 1 (its status
    when it finds vulnerabilities) and prints a report, [runNpmAudit]
    returns the report's critical and high counts, a missing count or a
    missing summary counting as 0. *)
Theorem runNpmAudit_reads_report (repoDir : string) (s : state)
    (summary : option vulnerabilities) :
  audit_reports w summary ->
  result_of (runNpmAudit w repoDir s) = Normal (counts_of_report summary).
Proof.
  intros (Hexit & Hparse).
  unfold runNpmAudit, result_of, try_catch, bind.
  rewrite execCommand_resolves by (apply audit_not_an_execution_error, Hexit).
  unfold settle. rewrite Hparse.
  destruct summary as [v |]; reflexivity.
Qed.

(** X8.  Whatever happens, [runNpmAudit] runs one command,
    [cd <repoDir> && npm audit --json], logs at most one error line after
    it, and leaves the disk as it was. *)
Theorem runNpmAudit_effects (repoDir : string) (s : state) :
  let s' := state_of (runNpmAudit w repoDir s) in
  disk s' = disk s /\
  exists tail,
    trace s' = trace s ++ Exec ("cd " +:+ repoDir +:+ " && npm audit --json") :: tail /\
    (tail = [] \/ exists text, tail = [Console Err text]).
Proof.
  cbv zeta. unfold runNpmAudit, state_of, try_catch, bind.
  destruct (is_execution_error (exec_err (audit_answer w))) eqn:Hexec.
  - rewrite execCommand_rejects by assumption.
    cbv [console emit bind ret snd disk trace]. split; [reflexivity |].
    eexists. rewrite <- app_assoc. split; [reflexivity |]. right. eauto.
  - rewrite execCommand_resolves by assumption. unfold settle.
    destruct (audit_parse w (resolved_output (audit_answer w))) as [[| [v |]] | e];
      cbv [console emit bind ret throw snd disk trace]; (split; [reflexivity |]);
      eexists; try rewrite <- app_assoc; (split; [reflexivity |]); eauto.
Qed.

End RunnersMore.

(** X5 at the repository whose eslint package is missing, with one
    critical vulnerability. *)
Lemma failed_lint_caps_score_witness :
  Conditions.lint_cannot_complete Worlds.lint_broken /\
  exists r,
    Runtime.result_of
      (Part000.runESLintAnalysis Worlds.lint_broken "/srv/ari/temp_repos/o_r_1" Worlds.start) =
    Runtime.Normal r /\
    Score.ari_score
      (Score.computeAriScore
         (Score.mk_analysis
            (Score.mk_eslint (Part000.errors r) (Part000.warnings r))
            (Score.mk_audit 1 0))) <= 68.
Proof.
  assert (H : Conditions.lint_cannot_complete Worlds.lint_broken).
  { left. vm_compute. eauto. }
  split; [exact H |].
  destruct (failed_lint_caps_score Worlds.lint_broken "/srv/ari/temp_repos/o_r_1"
              Worlds.start 1 0 H ltac:(lia) ltac:(lia)) as (r & Hr & Hs & _).
  exists r. split; [exact Hr | exact Hs].
Defined.

(** X6 at the healthy repository: 3 errors and 4 warnings in all. *)
Lemma runESLintAnalysis_totals_witness :
  Paths.lint_completes Worlds.healthy
    [Host.mk_lint_file 3 4; Host.mk_lint_file 0 0] /\
  Runtime.result_of
    (Part000.runESLintAnalysis Worlds.healthy "/srv/ari/temp_repos/o_r_1" Worlds.start) =
  Runtime.Normal (Part000.mk_lint 3 4 None).
Proof.
  assert (H : Paths.lint_completes Worlds.healthy
                [Host.mk_lint_file 3 4; Host.mk_lint_file 0 0]).
  { repeat split. }
  split; [exact H |].
  unfold Runtime.result_of.
  rewrite (runESLintAnalysis_totals Worlds.healthy _ _ _ H). reflexivity.
Defined.

(** X7 at the world where npm audit exits with status 1. *)
Lemma runNpmAudit_reads_report_witness :
  Paths.audit_reports Scenarios.audit_finds
    (Some (Host.mk_vulns (Some 1) None)) /\
  Runtime.result_of
    (Part000.runNpmAudit Scenarios.audit_finds "/srv/ari/temp_repos/o_r_1" Worlds.start) =
  Runtime.Normal (Part000.mk_audit_result 1 0).
Proof.
  assert (H : Paths.audit_reports Scenarios.audit_finds
                (Some (Host.mk_vulns (Some 1) None))).
  { split; [right; eexists; reflexivity | reflexivity]. }
  split; [exact H |].
  exact (runNpmAudit_reads_report Scenarios.audit_finds _ _ _ H).
Defined.

(** ** The orchestrator, path by path *)

Section OrchestratorMore.
Import Runtime Host Conditions Paths Part000.
Variable w : world.

(** The state once the clone has been attempted and the size measured. *)
Lemma attempt_clone_rejected (amb : ambient) (owner repo tempDir : string) (s : state) :
  is_execution_error (exec_err (clone_answer w)) = true ->
  attempt w amb owner repo tempDir s =
  (Normal (clone_failed (rejection_error (clone_answer w))),
   mk_state
     (if clone_leaves_dir w then {[tempDir]} ∪ disk s else disk s)
     (trace s ++ [Console Log (cloning_message (repoUrl_of owner repo) tempDir);
                  Exec (cloneCommand_of (repoUrl_of owner repo) tempDir)])).
Proof.
  intros Hclone. unfold attempt. cbv zeta.
  cbv [try_catch bind console emit update_disk].
  rewrite execCommand_rejects by assumption.
  cbv [ret disk trace]. repeat rewrite <- app_assoc. reflexivity.
Qed.

Lemma attempt_size_rejected (amb : ambient) (owner repo tempDir : string) (s : state) :
  is_execution_error (exec_err (clone_answer w)) = false ->
  is_execution_error (exec_err (size_answer w)) = true ->
  attempt w amb owner repo tempDir s =
  (Normal (clone_failed (rejection_error (size_answer w))),
   mk_state
     (if clone_leaves_dir w then {[tempDir]} ∪ disk s else disk s)
     (trace s ++ [Console Log (cloning_message (repoUrl_of owner repo) tempDir);
                  Exec (cloneCommand_of (repoUrl_of owner repo) tempDir);
                  Exec (sizeCommand_of w tempDir)])).
Proof.
  intros Hclone Hsize. unfold attempt. cbv zeta.
  cbv [try_catch bind console emit update_disk].
  rewrite execCommand_resolves by assumption.
  rewrite execCommand_rejects by assumption.
  cbv [ret disk trace]. repeat rewrite <- app_assoc. reflexivity.
Qed.

(** Past the size guard the run is the inner block under its handler. *)
Lemma attempt_past_guard (amb : ambient) (owner repo tempDir : string) (s : state) :
  size_check_passes w ->
  attempt w amb owner repo tempDir s =
  try_catch
    (analyse w amb owner repo tempDir (measured_size w))
    (fun e => ret (read_parse_rejection e))
    (mk_state
       (if clone_leaves_dir w then {[tempDir]} ∪ disk s else disk s)
       (trace s ++ [Console Log (cloning_message (repoUrl_of owner repo) tempDir);
                    Exec (cloneCommand_of (repoUrl_of owner repo) tempDir);
                    Exec (sizeCommand_of w tempDir)])).
Proof.
  intros (Hclone & Hsize & Hgt). unfold attempt. cbv zeta.
  unfold try_catch at 1. cbv [bind console emit update_disk].
  rewrite execCommand_resolves by assumption.
  rewrite execCommand_resolves by assumption.
  fold (measured_size w). rewrite Hgt.
  cbv [disk trace]. repeat rewrite <- app_assoc. cbn [app].
  unfold try_catch, read_parse_rejection.
  destruct (analyse _ _ _ _ _ _ _) as [[r | e] s']; [reflexivity |].
  destruct (bool_decide _); reflexivity.
Qed.

Lemma analyse_read_fails (amb : ambient) (owner repo tempDir : string)
    (size : option Z) (s : state) (e : js_error) :
  readFile_answer w = Throw e ->
  analyse w amb owner repo tempDir size s =
  (Throw e,
   mk_state (disk s)
     (trace s ++ [ReadFile (path_join (platform w) [tempDir; "package.json"])])).
Proof.
  intros H. unfold analyse. cbv zeta. rewrite H. reflexivity.
Qed.

Lemma analyse_parse_fails (amb : ambient) (owner repo tempDir : string)
    (size : option Z) (s : state) (content : string) (e : js_error) :
  readFile_answer w = Normal content ->
  JSON_parse w (JS.trim content) = Throw e ->
  analyse w amb owner repo tempDir size s =
  (Throw e,
   mk_state (disk s)
     (trace s ++ [ReadFile (path_join (platform w) [tempDir; "package.json"])])).
Proof.
  intros Hr Hp. unfold analyse. cbv zeta. rewrite Hr.
  cbv [bind emit settle]. rewrite Hp. reflexivity.
Qed.

(** The state in which the analysers start, counted from the state in
    which the inner block starts. *)
Lemma analyse_runs_analysers (owner repo tempDir : string) (size : option Z)
    (s : state) :
  package_json_parses w ->
  analyse w part_000_ambient owner repo tempDir size s =
  (Throw (ReferenceError "generateLLMExplanation"),
   state_of
     (runNpmAudit w tempDir
        (state_of
           (runESLintAnalysis w tempDir
              (mk_state (disk s)
                 (trace s ++
                  [ReadFile (path_join (platform w) [tempDir; "package.json"]);
                   Console Log ("Starting static analysis on " +:+ owner +:+ "/" +:+
                                repo +:+ "...");
                   Console Log ("Installing dependencies in " +:+ tempDir +:+ "...");
                   Exec (installCommand_of tempDir);
                   install_report w])))))).
Proof.
  intros (content & pkg & Hr & Hp). unfold analyse, install_report. cbv zeta.
  rewrite Hr. cbv [bind emit settle console]. rewrite Hp.
  cbn [validation_isValid]. cbv [try_catch bind emit console].
  destruct (is_execution_error (exec_err (install_answer w))) eqn:Hinst.
  - rewrite execCommand_rejects by assumption. cbv [disk trace].
    repeat rewrite <- app_assoc. cbn [app].
    match goal with |- context [runESLintAnalysis w tempDir ?s1] =>
      destruct (runESLintAnalysis_returns w tempDir s1) as (a & s2 & ->) end.
    cbn [state_of snd].
    destruct (runNpmAudit_returns w tempDir s2) as (b & s3 & ->).
    reflexivity.
  - rewrite execCommand_resolves by assumption. cbv [disk trace].
    repeat rewrite <- app_assoc. cbn [app].
    match goal with |- context [runESLintAnalysis w tempDir ?s1] =>
      destruct (runESLintAnalysis_returns w tempDir s1) as (a & s2 & ->) end.
    cbn [state_of snd].
    destruct (runNpmAudit_returns w tempDir s2) as (b & s3 & ->).
    reflexivity.
Qed.

(** The returned object, whatever the world. *)
Lemma validate_verdict (owner repo : string) (s : state) :
  result_of (validateRepoByCloning w owner repo s) = Normal (verdict w).
Proof.
  unfold validateRepoByCloning. rewrite validate_result. unfold verdict.
  destruct (is_execution_error (exec_err (clone_answer w))) eqn:Hclone.
  { rewrite attempt_clone_rejected by assumption. reflexivity. }
  destruct (is_execution_error (exec_err (size_answer w))) eqn:Hsize.
  { rewrite attempt_size_rejected by assumption. reflexivity. }
  destruct (JS.gt_number (measured_size w) MAX_CLONE_SIZE_BYTES) eqn:Hgt.
  { assert (Hbig : size_exceeds w).
    { split; [exact Hclone | split; [exact Hsize |]].
      unfold JS.gt_number in Hgt. destruct (measured_size w) as [n |]; [| discriminate].
      exists n. split; [reflexivity | apply Z.ltb_lt, Hgt]. }
    rewrite (attempt_oversized w _ _ _ _ _ Hbig). reflexivity. }
  rewrite attempt_past_guard by (repeat split; assumption).
  unfold try_catch.
  destruct (readFile_answer w) as [content | e] eqn:Hread.
  2:{ erewrite analyse_read_fails by eassumption. reflexivity. }
  destruct (JSON_parse w (JS.trim content)) as [pkg | e] eqn:Hparse.
  2:{ erewrite analyse_parse_fails by eassumption. reflexivity. }
  rewrite analyse_runs_analysers by (exists content, pkg; split; assumption).
  reflexivity.
Qed.

Lemma length_append (a b : string) :
  String.length (a +:+ b) = (String.length a + String.length b)%nat.
Proof.
  induction a as [| c a IH]; [reflexivity |].
  change (String c a +:+ b) with (String c (a +:+ b)).
  cbn [String.length Nat.add]. f_equal. exact IH.
Qed.

Lemma length_substring0 (n : nat) (s : string) :
  (String.length (JS.substring0 n s) <= n)%nat.
Proof.
  revert s. induction n as [| n IH]; intros [| c s]; cbn; try lia.
  specialize (IH s). lia.
Qed.

(** X9.  When git clone is rejected the run resolves to the Clone Failed
    rejection, whose message keeps at most the first 200 characters of the
    error and so is at most 217 characters long; nothing but the clone is
    attempted before the working area is removed. *)
Theorem clone_failure_stops_the_run (owner repo : string) (s : state) :
  is_execution_error (exec_err (clone_answer w)) = true ->
  let tempDir := tempDir_of w owner repo in
  let run := validateRepoByCloning w owner repo s in
  (exists r,
     result_of run = Normal r /\
     r = clone_failed (rejection_error (clone_answer w)) /\
     (String.length (message r) <= 217)%nat) /\
  exists report,
    trace (state_of run) =
    trace s ++ [Console Log (cloning_message (repoUrl_of owner repo) tempDir);
                Exec (cloneCommand_of (repoUrl_of owner repo) tempDir);
                Rm tempDir;
                report].
Proof.
  intros Hclone tempDir run. subst run. unfold validateRepoByCloning.
  rewrite validate_result, validate_state. fold tempDir.
  rewrite attempt_clone_rejected by assumption. cbn [result_of state_of fst snd].
  split.
  - eexists. split; [reflexivity |]. split; [reflexivity |].
    unfold clone_failed, rejection. cbn [message].
    rewrite !length_append.
    pose proof (length_substring0 200 (err_message (rejection_error (clone_answer w)))).
    cbn [String.length]. lia.
  - destruct (rm_answer w) as [e |] eqn:Hrm.
    + rewrite (cleanup_fails w _ _ e Hrm). cbn [snd trace].
      eexists. rewrite <- app_assoc. reflexivity.
    + rewrite (cleanup_removes w _ _ Hrm). cbn [snd trace].
      eexists. rewrite <- app_assoc. reflexivity.
Qed.

(** X10.  A measurement that cannot be run is reported as a failed clone:
    when the clone succeeds and the size command is rejected, the run
    resolves to the Clone Failed rejection carrying the size command's
    error, and goes straight to the removal. *)
Theorem size_command_failure_reported_as_clone_failure
    (owner repo : string) (s : state) :
  clone_succeeds w ->
  is_execution_error (exec_err (size_answer w)) = true ->
  let tempDir := tempDir_of w owner repo in
  let run := validateRepoByCloning w owner repo s in
  result_of run = Normal (clone_failed (rejection_error (size_answer w))) /\
  exists report,
    trace (state_of run) =
    trace s ++ [Console Log (cloning_message (repoUrl_of owner repo) tempDir);
                Exec (cloneCommand_of (repoUrl_of owner repo) tempDir);
                Exec (sizeCommand_of w tempDir);
                Rm tempDir;
                report].
Proof.
  intros Hclone Hsize tempDir run. subst run. unfold validateRepoByCloning.
  rewrite validate_result, validate_state. fold tempDir.
  rewrite attempt_size_rejected by assumption. cbn [result_of state_of fst snd].
  split; [reflexivity |].
  destruct (rm_answer w) as [e |] eqn:Hrm.
  - rewrite (cleanup_fails w _ _ e Hrm). cbn [snd trace].
    eexists. rewrite <- app_assoc. reflexivity.
  - rewrite (cleanup_removes w _ _ Hrm). cbn [snd trace].
    eexists. rewrite <- app_assoc. reflexivity.
Qed.


(** X12.  An output of the size command that does not start with a number
    lets every clone through: [parseInt] gives NaN, no comparison with NaN
    holds, and the run goes on to package.json, so that its result is one
    of the read/parse handler's rejections and never the size rejection. *)
Theorem unmeasured_size_passes_the_guard (owner repo : string) (s : state) :
  clone_succeeds w -> size_measured w -> measured_size w = None ->
  exists e,
    result_of (validateRepoByCloning w owner repo s) = Normal (read_parse_rejection e).
Proof.
  intros Hclone Hsize Hnan. rewrite validate_verdict. unfold verdict.
  rewrite Hclone, Hsize, Hnan. cbn [JS.gt_number].
  destruct (readFile_answer w) as [content | e]; [| eauto].
  destruct (JSON_parse w (JS.trim content)) as [pkg | e]; eauto.
Qed.



End OrchestratorMore.

(** Witnesses of the path theorems. *)
Lemma clone_failure_stops_the_run_witness :
  Part000.is_execution_error (Host.exec_err (Host.clone_answer Worlds.clone_refused)) = true /\
  exists r,
    Runtime.result_of (Part000.validateRepoByCloning Worlds.clone_refused "o" "r" Worlds.start) =
    Runtime.Normal r /\
    (String.length (Part000.message r) <= 217)%nat.
Proof.
  split; [reflexivity |].
  destruct (clone_failure_stops_the_run Worlds.clone_refused "o" "r" Worlds.start eq_refl)
    as ((r & Hr & _ & Hlen) & _).
  exists r. split; [exact Hr | exact Hlen].
Defined.

Lemma size_command_failure_reported_as_clone_failure_witness :
  Conditions.clone_succeeds Scenarios.du_missing /\
  Part000.is_execution_error (Host.exec_err (Host.size_answer Scenarios.du_missing)) = true /\
  Runtime.result_of (Part000.validateRepoByCloning Scenarios.du_missing "o" "r" Worlds.start) =
  Runtime.Normal
    (Paths.clone_failed (Part000.rejection_error (Host.size_answer Scenarios.du_missing))).
Proof.
  split; [reflexivity |]. split; [reflexivity |].
  exact (proj1 (size_command_failure_reported_as_clone_failure
                  Scenarios.du_missing "o" "r" Worlds.start eq_refl eq_refl)).
Defined.


Lemma unmeasured_size_passes_the_guard_witness :
  Conditions.clone_succeeds Scenarios.size_unreadable /\
  Conditions.size_measured Scenarios.size_unreadable /\
  Conditions.measured_size Scenarios.size_unreadable = None /\
  exists e,
    Runtime.result_of
      (Part000.validateRepoByCloning Scenarios.size_unreadable "o" "r" Worlds.start) =
    Runtime.Normal (Paths.read_parse_rejection e).
Proof.
  split; [reflexivity |]. split; [reflexivity |]. split; [reflexivity |].
  exact (unmeasured_size_passes_the_guard Scenarios.size_unreadable "o" "r" Worlds.start
           eq_refl eq_refl eq_refl).
Defined.


(** ** The size measurement *)

Section Measurement.
Import Runtime Host Conditions Paths.

Lemma decimal_digit_value (a : Ascii.ascii) :
  is_decimal_digit a = true -> is_Some (JS.digit_value 10 a).
Proof.
  destruct a as [[] [] [] [] [] [] [] []]; intros H; try discriminate H;
    vm_compute; eauto.
Qed.

Lemma digits_prefix_stops_at_newline (ds rest : string) (acc : option Z) :
  all_digits ds = true ->
  JS.digits_prefix 10 acc (ds +:+ JS.newline +:+ rest) = JS.digits_prefix 10 acc ds.
Proof.
  revert acc. induction ds as [| a ds IH]; intros acc H.
  - reflexivity.
  - cbn [all_digits] in H. apply andb_prop in H as [Ha Hds].
    change (String a ds +:+ JS.newline +:+ rest)
      with (String a (ds +:+ JS.newline +:+ rest)).
    cbn [JS.digits_prefix].
    destruct (decimal_digit_value a Ha) as [v ->]. apply IH, Hds.
Qed.

Lemma sign_one (x : option Z) : (fun v => 1 * v) <$> x = x.
Proof. destruct x as [v |]; cbn; [f_equal; lia | reflexivity]. Qed.

(** A string that starts with a decimal digit, followed by decimal digits
    and then nothing or a line feed, is read in radix 10 from its first
    character. *)
Lemma parseInt_reads_decimal (a : Ascii.ascii) (ds tail : string) :
  is_decimal_digit a = true -> all_digits ds = true ->
  (tail = EmptyString \/ exists rest, tail = JS.newline +:+ rest) ->
  JS.parseInt (String a (ds +:+ tail)) =
  JS.digits_prefix 10 None (String a (ds +:+ tail)).
Proof.
  intros Ha Hds Htail.
  assert (Hsecond : forall b more, ds +:+ tail = String b more ->
                    b <> "x"%char /\ b <> "X"%char).
  { intros b more E. destruct ds as [| d ds'].
    - destruct Htail as [-> | [rest ->]]; [discriminate E |].
      inversion E; subst. split; discriminate.
    - change (String d ds' +:+ tail) with (String d (ds' +:+ tail)) in E.
      inversion E; subst. cbn [all_digits] in Hds.
      apply andb_prop in Hds as [Hb _].
      split; intros ->; discriminate Hb. }
  unfold JS.parseInt.
  destruct a as [[] [] [] [] [] [] [] []]; try discriminate Ha;
    cbn [JS.trim_start JS.is_space]; cbv beta iota;
    try (change (JS.is_space _) with false; cbv beta iota);
    try (rewrite sign_one; reflexivity).
  all: destruct (ds +:+ tail) as [| b more] eqn:E;
    [rewrite sign_one; reflexivity |].
  all: destruct (Hsecond b more eq_refl) as [Hx HX].
  all: destruct b as [[] [] [] [] [] [] [] []];
    try (exfalso; apply Hx; reflexivity);
    try (exfalso; apply HX; reflexivity);
    rewrite sign_one; reflexivity.
Qed.

(** X15.  What the size command writes to stderr does not disturb the
    measurement: when its trimmed stdout is a non-empty string of decimal
    digits, the measured size is the number those digits spell, read by
    [parseInt] from stdout alone. *)
Theorem measured_size_ignores_stderr (w : world) :
  let out := JS.trim (stdout (size_answer w)) in
  out <> EmptyString -> all_digits out = true ->
  measured_size w = JS.parseInt out /\
  measured_size w = JS.digits_prefix 10 None out.
Proof.
  cbv zeta. intros Hne Hds.
  unfold measured_size, Part000.resolved_output.
  destruct (JS.trim (stdout (size_answer w))) as [| a ds] eqn:E; [congruence |].
  cbn [all_digits] in Hds. apply andb_prop in Hds as [Ha Hds].
  assert (Halone : JS.parseInt (String a ds) = JS.digits_prefix 10 None (String a ds)).
  { replace (String a ds) with (String a (ds +:+ EmptyString)).
    - apply parseInt_reads_decimal; auto.
    - f_equal. clear. induction ds as [| c ds IH]; [reflexivity |].
      change (String c ds +:+ EmptyString) with (String c (ds +:+ EmptyString)).
      f_equal. exact IH. }
  destruct (JS.truthy_string (stderr (size_answer w))).
  - change (String a ds +:+ JS.newline +:+ JS.trim (stderr (size_answer w)))
      with (String a (ds +:+ JS.newline +:+ JS.trim (stderr (size_answer w)))).
    rewrite parseInt_reads_decimal by eauto.
    change (String a (ds +:+ JS.newline +:+ JS.trim (stderr (size_answer w))))
      with (String a ds +:+ JS.newline +:+ JS.trim (stderr (size_answer w))).
    rewrite digits_prefix_stops_at_newline
      by (cbn [all_digits]; rewrite Ha, Hds; reflexivity).
    rewrite Halone. split; reflexivity.
  - replace (String a ds +:+ JS.empty) with (String a ds).
    + rewrite Halone. split; reflexivity.
    + clear. unfold JS.empty. generalize (String a ds). intros x.
      induction x as [| c x IH]; [reflexivity |].
      change (String c x +:+ EmptyString) with (String c (x +:+ EmptyString)).
      f_equal. exact IH.
Qed.

End Measurement.

(** X15 where du prints the size and a complaint. *)
Lemma measured_size_ignores_stderr_witness :
  JS.trim (Host.stdout (Host.size_answer Scenarios.du_complains)) <> EmptyString /\
  Paths.all_digits (JS.trim (Host.stdout (Host.size_answer Scenarios.du_complains))) = true /\
  Conditions.measured_size Scenarios.du_complains = Some 123456.
Proof.
  assert (H1 : JS.trim (Host.stdout (Host.size_answer Scenarios.du_complains)) <> EmptyString)
    by (vm_compute; discriminate).
  assert (H2 : Paths.all_digits
                 (JS.trim (Host.stdout (Host.size_answer Scenarios.du_complains))) = true)
    by reflexivity.
  split; [exact H1 |]. split; [exact H2 |].
  rewrite (proj1 (measured_size_ignores_stderr Scenarios.du_complains H1 H2)).
  reflexivity.
Defined.

(** ** The explanation generator: what it sends and what it reads *)

Section ExplanationMore.
Import Runtime Host Conditions Paths LLM.
Variable w : world.

(** Reading the response has no effect of its own. *)
Lemma read_explanation_pure (r : response) (s : state) :
  snd (read_explanation w r s) = s.
Proof.
  unfold read_explanation, message_content.
  cbv [bind settle ret throw].
  repeat case_match; simplify_eq; reflexivity.
Qed.

(** X16.  A call without an API key sends nothing: it logs one warning.
    A call with a key sends exactly one request, first thing, to the chat
    completions endpoint with the key as bearer token and the prompts built
    from its argument, and logs at most one warning after it.  No call
    touches the disk. *)
Theorem generateLLMExplanation_effects (i : input) (s : state) :
  let s' := state_of (generateLLMExplanation w i s) in
  disk s' = disk s /\
  (no_api_key w = true ->
   trace s' = trace s ++ [Console Warn "LLM skipped: OPENAI_API_KEY not set"]) /\
  (no_api_key w = false ->
   exists tail,
     trace s' =
     trace s ++
     Fetch endpoint ("Bearer " +:+ default "undefined" (OPENAI_API_KEY w))
           OPENAI_MODEL (JS.trim systemPrompt) (JS.trim (userPrompt i)) :: tail /\
     (tail = [] \/ exists text, tail = [Console Warn text])).
Proof.
  cbv zeta. unfold generateLLMExplanation, state_of.
  destruct (no_api_key w).
  { cbv [bind console emit ret snd disk trace].
    split; [reflexivity |]. split; [reflexivity | discriminate]. }
  unfold try_catch, explanation_failed, fetch_completion.
  cbv [bind console emit settle ret].
  destruct (fetch_answer w) as [r | e].
  2:{ cbn [snd disk trace]. split; [reflexivity |]. split; [discriminate | intros _].
      eexists. rewrite <- app_assoc. split; [reflexivity | eauto]. }
  destruct (ok r); cbn [negb].
  2:{ cbn [snd disk trace]. split; [reflexivity |]. split; [discriminate | intros _].
      eexists. rewrite <- app_assoc. split; [reflexivity | eauto]. }
  match goal with |- context [read_explanation w r ?s1] =>
    pose proof (read_explanation_pure r s1) as Hpure;
    destruct (read_explanation w r s1) as [[v | e] s2] end;
    cbn [snd] in Hpure; subst s2; cbn [snd disk trace];
    (split; [reflexivity |]); (split; [discriminate | intros _]);
    eexists; try rewrite <- app_assoc; (split; [reflexivity | eauto]).
Qed.

Lemma first_choice_content_of (data : JS.json) (c : string) :
  first_choice_content data c ->
  data <> JS.JNull /\ content_of data = Some (JS.JStr c).
Proof.
  intros (props & first & others & message & -> & Hc & Hm & Hs).
  split; [discriminate |].
  unfold content_of. cbn [prop]. rewrite Hc. cbn [optional index0 head].
  cbn [prop]. rewrite Hm. cbn [optional prop]. exact Hs.
Qed.

(** X17.  Of a chat completion only the first choice is read: when the
    response is ok and the message of its first choice has a non-empty
    string as content, the generator returns what [JSON.parse] makes of
    that string, and [null] if it makes nothing of it; further choices and
    further properties play no part. *)
Theorem generateLLMExplanation_reads_first_choice
    (i : input) (s : state) (data : JS.json) (c : string) :
  completion_received w data ->
  first_choice_content data c ->
  c <> EmptyString ->
  result_of (generateLLMExplanation w i s) =
  match JSON_parse w c with
  | Normal v => Normal v
  | Throw _ => Normal JS.JNull
  end.
Proof.
  intros (Hkey & r & Hf & Hok & Hb) Hfirst Hc.
  destruct (first_choice_content_of data c Hfirst) as [Hnn Hcontent].
  assert (Ht : JS.truthy (Some (JS.JStr c)) = true)
    by (destruct c; [congruence | reflexivity]).
  rewrite generateLLMExplanation_with_key by assumption.
  destruct (JSON_parse w c) as [v | e] eqn:Hp; apply yields_result.
  - apply yields_try_catch.
    eapply yields_bind; [apply fetch_completion_yields, Hf |].
    rewrite Hok. unfold read_explanation. rewrite Hb.
    eapply yields_bind; [apply yields_settle |].
    eapply yields_bind; [apply message_content_yields, Hnn |].
    rewrite Hcontent, Ht. cbn [negb JS.ToString]. rewrite Hp. apply yields_settle.
  - eapply yields_try_catch_handler; [| apply handler_yields_null].
    eapply throws_bind_yield; [apply fetch_completion_yields, Hf |].
    rewrite Hok. unfold read_explanation. rewrite Hb.
    eapply throws_bind_yield; [apply yields_settle |].
    eapply throws_bind_yield; [apply message_content_yields, Hnn |].
    rewrite Hcontent, Ht. cbn [negb JS.ToString]. rewrite Hp. apply throws_settle.
Qed.

End ExplanationMore.

(** X16 and X17 at the healthy world and at the same world without a
    key. *)
Lemma generateLLMExplanation_effects_witness :
  LLM.no_api_key (Scenarios.without_api_key Worlds.healthy) = true /\
  Runtime.trace
    (Runtime.state_of
       (LLM.generateLLMExplanation (Scenarios.without_api_key Worlds.healthy)
          Worlds.sample_input Worlds.start)) =
  [Runtime.Console Runtime.Warn "LLM skipped: OPENAI_API_KEY not set"].
Proof.
  split; [reflexivity |].
  exact (proj1 (proj2 (generateLLMExplanation_effects
                         (Scenarios.without_api_key Worlds.healthy)
                         Worlds.sample_input Worlds.start)) eq_refl).
Defined.

Lemma generateLLMExplanation_reads_first_choice_witness :
  Paths.completion_received Worlds.healthy
    (Worlds.chat_completion (JS.JStr Worlds.canned_content)) /\
  Paths.first_choice_content
    (Worlds.chat_completion (JS.JStr Worlds.canned_content)) Worlds.canned_content /\
  Runtime.result_of
    (LLM.generateLLMExplanation Worlds.healthy Worlds.sample_input Worlds.start) =
  Runtime.Normal (JS.JObj []).
Proof.
  assert (H1 : Paths.completion_received Worlds.healthy
                 (Worlds.chat_completion (JS.JStr Worlds.canned_content))).
  { split; [reflexivity |]. eexists. repeat split. }
  assert (H2 : Paths.first_choice_content
                 (Worlds.chat_completion (JS.JStr Worlds.canned_content))
                 Worlds.canned_content).
  { eexists _, _, _, _. repeat split. }
  split; [exact H1 |]. split; [exact H2 |].
  exact (generateLLMExplanation_reads_first_choice Worlds.healthy
           Worlds.sample_input Worlds.start _ _ H1 H2 ltac:(discriminate)).
Defined.

(** ** validator.js *)

Section ValidatorProperties.
Import Runtime Validator.
Variable g : github.

(** X18.  [validateProjectType] never throws and changes nothing on disk.
    It asks for package.json on the given branch, on main when none is
    given; its result is valid exactly when the request resolves and the
    body parses, and then carries the parsed value; the body is logged
    exactly when the request resolves, before it is parsed. *)
Theorem validateProjectType_contract
    (owner repo : string) (branch : option string) (s : state) :
  let url := contentUrl_of owner repo (default "main" branch) in
  exists r s',
    validateProjectType g owner repo branch s = (Normal r, s') /\
    disk s' = disk s /\
    (check_isValid r = true <->
     exists body v,
       axios_get g url = Resolved body /\ parse g body = Normal v /\
       check_data r = Some v) /\
    (check_isValid r = false -> check_data r = None) /\
    trace s' =
    trace s ++
    match axios_get g url with
    | Resolved body => [Console Log body]
    | Rejected _ => []
    end.
Proof.
  cbv zeta. unfold validateProjectType. cbv zeta.
  destruct (axios_get g _) as [body | error].
  - cbv [bind console emit try_catch settle ret].
    destruct (parse g body) as [v | e] eqn:Hp; eexists _, _;
      (split; [reflexivity |]); cbn [disk trace check_isValid check_data];
      (split; [reflexivity |]).
    + split; [| split; [discriminate | reflexivity]].
      split; [intros _; exists body, v; auto | reflexivity].
    + split; [| split; reflexivity].
      split; [discriminate |].
      intros (body' & v' & Hb & Hp' & _). inversion Hb; subst. congruence.
  - destruct (is_404 error); eexists _, _;
      (split; [reflexivity |]); cbn [ret disk trace check_isValid check_data];
      (split; [reflexivity |]);
      (split; [| split; [reflexivity | rewrite app_nil_r; reflexivity]]);
      (split; [discriminate | intros (? & ? & H & _); discriminate H]).
Qed.

(** X19.  Every rejected request becomes an invalid result whose message
    tells three cases apart: a 404 answer gives the not-found message,
    which names the repository but not the branch; any other answer gives
    "Github API Error: Status <status>: <status text>"; no answer at all
    gives "Github API Error: " followed by the error's own message. *)
Theorem validateProjectType_failure_messages
    (owner repo : string) (branch : option string) (s : state) (error : axios_error) :
  axios_get g (contentUrl_of owner repo (default "main" branch)) = Rejected error ->
  exists message,
    result_of (validateProjectType g owner repo branch s) =
    Normal (mk_check false message None) /\
    match error_response error with
    | Some r =>
        if response_status r =? 404 then message = not_found_message owner repo
        else message =
             "Github API Error: Status " +:+ pretty (response_status r) +:+ ": " +:+
             response_statusText r
    | None => message = "Github API Error: " +:+ error_message error
    end.
Proof.
  intros H. unfold validateProjectType. cbv zeta. rewrite H.
  unfold is_404, errorMessage_of.
  destruct (error_response error) as [r |].
  - destruct (response_status r =? 404); eexists; split; reflexivity.
  - eexists; split; reflexivity.
Qed.

End ValidatorProperties.

(** X19 at a private repository, a missing one, and an unreachable
    provider. *)
Lemma validateProjectType_failure_messages_witness :
  Runtime.result_of
    (Validator.validateProjectType Scenarios.provider "o" "private" None Worlds.start) =
  Runtime.Normal (Validator.mk_check false "Github API Error: Status 403: Forbidden" None).
Proof.
  destruct (validateProjectType_failure_messages Scenarios.provider "o" "private" None
              Worlds.start _ eq_refl) as (message & Hr & Hm).
  cbn in Hm. rewrite Hr, Hm. reflexivity.
Defined.

(** ** The working area's name *)

Section WorkingAreaName.
Import Runtime Host Part000.

Lemma append_cancel_l (p a b : string) : p +:+ a = p +:+ b -> a = b.
Proof.
  induction p as [| c p IH]; [auto |].
  change (String c p +:+ a) with (String c (p +:+ a)).
  change (String c p +:+ b) with (String c (p +:+ b)).
  intros H. inversion H. auto.
Qed.

(** X20.  Two runs on the same repository from the same installation get
    different working areas whenever their clocks differ, be it by one
    millisecond. *)
Theorem tempDir_differs_with_the_clock (w w' : world) (owner repo : string) :
  platform w = platform w' -> dirname w = dirname w' -> now w <> now w' ->
  tempDir_of w owner repo <> tempDir_of w' owner repo.
Proof.
  intros Hp Hd Hn E. apply Hn. unfold tempDir_of, path_join in E.
  cbn [foldl] in E. rewrite Hp, Hd in E.
  do 6 apply append_cancel_l in E.
  exact (inj pretty _ _ E).
Qed.

End WorkingAreaName.

(** X20 at two runs one millisecond apart. *)
Lemma tempDir_differs_with_the_clock_witness :
  Part000.tempDir_of Worlds.healthy "o" "r" <>
  Part000.tempDir_of
    (Host.mk_world "linux" "/srv/ari" 1700000000001 None
       (Host.JSON_parse Worlds.healthy) (Host.clone_answer Worlds.healthy) true
       (Host.size_answer Worlds.healthy) (Host.readFile_answer Worlds.healthy)
       (Host.install_answer Worlds.healthy) None None
       (Host.eslint_lintFiles Worlds.healthy) (Host.audit_answer Worlds.healthy)
       (Host.audit_parse Worlds.healthy) None (Host.fetch_answer Worlds.healthy))
    "o" "r".
Proof.
  apply tempDir_differs_with_the_clock; [reflexivity | reflexivity | discriminate].
Defined.
